(** * Interaction controller of the local-container-registry terminal UI

    Shallow embedding of [src/tui.go]: the [model] struct, its [Update]
    transition function, the row projections ([updateTableForTab],
    [initPodDefTable]), [truncateString] and the deployment-name generator of
    [createNewDeployment].  Go strings are byte strings: they are modelled as
    Rocq [string]s (lists of 8-bit [ascii]).  Go [int]s are modelled as [Z].
    A Go run-time panic (index out of range, bad slice bound) is modelled by
    [None]. *)

From Stdlib Require Import String Ascii List ZArith Bool Lia.
Import ListNotations.
Local Open Scope string_scope.
Local Open Scope Z_scope.

(** ** Go helpers *)

(** [l[i]] on a Go slice: panics ([None]) out of range, also for [i < 0]. *)
Definition go_index {A : Type} (l : list A) (i : Z) : option A :=
  if i <? 0 then None else nth_error l (Z.to_nat i).

Definition go_len {A : Type} (l : list A) : Z := Z.of_nat (length l).

Definition str_len (s : string) : Z := Z.of_nat (String.length s).

(** Option monad, for code whose panics propagate. *)
Notation "'let*' x := a 'in' b" :=
  (match a with Some x => b | None => None end)
  (at level 200, x name, a at level 100, b at level 200).

(** Mapping a possibly-panicking function over a slice in order. *)
Fixpoint map_opt {A B : Type} (f : A -> option B) (l : list A) : option (list B) :=
  match l with
  | [] => Some []
  | x :: l' =>
      let* y := f x in
      let* ys := map_opt f l' in
      Some (y :: ys)
  end.

(** [truncateString] (tui.go, l. 887).  The slice [s[:maxLen-3]] panics
    when [maxLen - 3 < 0]. *)
Definition truncateString (s : string) (maxLen : Z) : option string :=
  if str_len s <=? maxLen then Some s
  else if maxLen - 3 <? 0 then None
  else Some (substring 0 (Z.to_nat (maxLen - 3)) s ++ "...").

(** [strings.ToLower] on ASCII byte strings (image references are ASCII). *)
Definition ascii_lower (c : ascii) : ascii :=
  let n := nat_of_ascii c in
  if (65 <=? n)%nat && (n <=? 90)%nat then ascii_of_nat (n + 32) else c.

Fixpoint ToLower (s : string) : string :=
  match s with
  | EmptyString => EmptyString
  | String c s' => String (ascii_lower c) (ToLower s')
  end.

(** [strings.ReplaceAll(s, old, new)] for one-byte [old] and [new]. *)
Fixpoint ReplaceAllByte (s : string) (old new : ascii) : string :=
  match s with
  | EmptyString => EmptyString
  | String c s' =>
      String (if Ascii.eqb c old then new else c) (ReplaceAllByte s' old new)
  end.

(** [strings.Trim(s, "-")]: drop leading and trailing ['-'] bytes. *)
Fixpoint TrimLeftByte (s : string) (c : ascii) : string :=
  match s with
  | EmptyString => EmptyString
  | String a s' => if Ascii.eqb a c then TrimLeftByte s' c else s
  end.

Fixpoint rev_string (s : string) : string :=
  match s with
  | EmptyString => EmptyString
  | String a s' => rev_string s' ++ String a EmptyString
  end.

Definition TrimByte (s : string) (c : ascii) : string :=
  rev_string (TrimLeftByte (rev_string (TrimLeftByte s c)) c).

(** [strings.HasPrefix] / [strings.TrimPrefix]. *)
Definition HasPrefix (s p : string) : bool := String.prefix p s.

Definition TrimPrefix (s p : string) : string :=
  if HasPrefix s p then substring (String.length p) (String.length s - String.length p) s
  else s.

(** [strings.LastIndex(s, sep)] for a one-byte [sep]: [-1] when absent. *)
Fixpoint last_index_from (s : string) (c : ascii) (i acc : Z) : Z :=
  match s with
  | EmptyString => acc
  | String a s' => last_index_from s' c (i + 1) (if Ascii.eqb a c then i else acc)
  end.

Definition LastIndexByte (s : string) (c : ascii) : Z := last_index_from s c 0 (-1).

(** ** Deployment-name generator

    The body shared verbatim by [createNewDeployment] (l. 818-835) and the
    create step of [renderModal] (l. 564-580). *)
Definition deploymentNameFor (imageName : string) : string :=
  let n := ToLower imageName in
  let n := ReplaceAllByte n ":" "-" in
  let n := ReplaceAllByte n "/" "-" in
  let n := ReplaceAllByte n "_" "-" in
  let n := ReplaceAllByte n "." "-" in
  let n := TrimByte n "-" in
  let n := if String.eqb n "" || String.eqb n "latest" then "new-deployment" else n in
  match n with
  | String c _ =>
      if (nat_of_ascii c <? 97)%nat || (122 <? nat_of_ascii c)%nat
      then "app-" ++ n else n
  | EmptyString => n
  end.

(** The call [createKubernetesDeployment(imageName, deploymentName, "default")]
    that the command of [createNewDeployment] performs. *)
Definition createNewDeployment_call (imageName : string) : string * string * string :=
  (imageName, deploymentNameFor imageName, "default").

(** ** Data model *)

(** [TableData] (main.go, l. 52). *)
Record TableData := mkTableData {
  CommitSHA : string; PRDescription : string; ImageID : string;
  ImageSize : string; ImageTag : string; PushedAt : string; CreatedAt : string;
  PodName : string; Namespace : string; Status : string; Restarts : string;
  Age : string; NodeName : string }.

(** The [bubbles/table] widget: its columns (nil = [[]]), rows, cursor and size. *)
Record Column := mkColumn { Title : string; Width : Z }.
Definition Row := list string.

Record table_Model := mkTable {
  cols : list Column; rows : list Row; cursor : Z; tblWidth : Z; tblHeight : Z }.

Definition table_New (c : list Column) (r : list Row) (h : Z) : table_Model :=
  mkTable c r 0 0 h.

Definition SetColumns (c : list Column) (t : table_Model) : table_Model :=
  mkTable c (rows t) (cursor t) (tblWidth t) (tblHeight t).
Definition SetRows (r : list Row) (t : table_Model) : table_Model :=
  mkTable (cols t) r (cursor t) (tblWidth t) (tblHeight t).
Definition SetWidth (w : Z) (t : table_Model) : table_Model :=
  mkTable (cols t) (rows t) (cursor t) w (tblHeight t).
Definition SetHeight (h : Z) (t : table_Model) : table_Model :=
  mkTable (cols t) (rows t) (cursor t) (tblWidth t) h.
(** [SetCursor(n)]: [cursor = clamp(n, 0, len(rows)-1)]. *)
Definition SetCursor (n : Z) (t : table_Model) : table_Model :=
  mkTable (cols t) (rows t) (Z.min (Z.max n 0) (go_len (rows t) - 1))
    (tblWidth t) (tblHeight t).

(** [model] (tui.go, l. 55). *)
Record model := mkModel {
  table : table_Model; quitting : bool; activeTab : Z; tabs : list string;
  gitData : list TableData; dockerData : list TableData; kubesData : list TableData;
  width : Z; height : Z; showModal : bool; selectedImage : string;
  showPodDef : bool; selectedPod : string; selectedPodNS : string;
  podDefTable : table_Model; deployments : list TableData;
  selectedDeployment : Z; deploymentPods : list TableData;
  selectedPod2 : Z; modalStep : Z }.

Definition set_table (x : table_Model) (m : model) : model :=
  mkModel x (quitting m) (activeTab m) (tabs m) (gitData m) (dockerData m) (kubesData m) (width m) (height m) (showModal m) (selectedImage m) (showPodDef m) (selectedPod m) (selectedPodNS m) (podDefTable m) (deployments m) (selectedDeployment m) (deploymentPods m) (selectedPod2 m) (modalStep m).
Definition set_quitting (x : bool) (m : model) : model :=
  mkModel (table m) x (activeTab m) (tabs m) (gitData m) (dockerData m) (kubesData m) (width m) (height m) (showModal m) (selectedImage m) (showPodDef m) (selectedPod m) (selectedPodNS m) (podDefTable m) (deployments m) (selectedDeployment m) (deploymentPods m) (selectedPod2 m) (modalStep m).
Definition set_activeTab (x : Z) (m : model) : model :=
  mkModel (table m) (quitting m) x (tabs m) (gitData m) (dockerData m) (kubesData m) (width m) (height m) (showModal m) (selectedImage m) (showPodDef m) (selectedPod m) (selectedPodNS m) (podDefTable m) (deployments m) (selectedDeployment m) (deploymentPods m) (selectedPod2 m) (modalStep m).
Definition set_tabs (x : list string) (m : model) : model :=
  mkModel (table m) (quitting m) (activeTab m) x (gitData m) (dockerData m) (kubesData m) (width m) (height m) (showModal m) (selectedImage m) (showPodDef m) (selectedPod m) (selectedPodNS m) (podDefTable m) (deployments m) (selectedDeployment m) (deploymentPods m) (selectedPod2 m) (modalStep m).
Definition set_gitData (x : list TableData) (m : model) : model :=
  mkModel (table m) (quitting m) (activeTab m) (tabs m) x (dockerData m) (kubesData m) (width m) (height m) (showModal m) (selectedImage m) (showPodDef m) (selectedPod m) (selectedPodNS m) (podDefTable m) (deployments m) (selectedDeployment m) (deploymentPods m) (selectedPod2 m) (modalStep m).
Definition set_dockerData (x : list TableData) (m : model) : model :=
  mkModel (table m) (quitting m) (activeTab m) (tabs m) (gitData m) x (kubesData m) (width m) (height m) (showModal m) (selectedImage m) (showPodDef m) (selectedPod m) (selectedPodNS m) (podDefTable m) (deployments m) (selectedDeployment m) (deploymentPods m) (selectedPod2 m) (modalStep m).
Definition set_kubesData (x : list TableData) (m : model) : model :=
  mkModel (table m) (quitting m) (activeTab m) (tabs m) (gitData m) (dockerData m) x (width m) (height m) (showModal m) (selectedImage m) (showPodDef m) (selectedPod m) (selectedPodNS m) (podDefTable m) (deployments m) (selectedDeployment m) (deploymentPods m) (selectedPod2 m) (modalStep m).
Definition set_width (x : Z) (m : model) : model :=
  mkModel (table m) (quitting m) (activeTab m) (tabs m) (gitData m) (dockerData m) (kubesData m) x (height m) (showModal m) (selectedImage m) (showPodDef m) (selectedPod m) (selectedPodNS m) (podDefTable m) (deployments m) (selectedDeployment m) (deploymentPods m) (selectedPod2 m) (modalStep m).
Definition set_height (x : Z) (m : model) : model :=
  mkModel (table m) (quitting m) (activeTab m) (tabs m) (gitData m) (dockerData m) (kubesData m) (width m) x (showModal m) (selectedImage m) (showPodDef m) (selectedPod m) (selectedPodNS m) (podDefTable m) (deployments m) (selectedDeployment m) (deploymentPods m) (selectedPod2 m) (modalStep m).
Definition set_showModal (x : bool) (m : model) : model :=
  mkModel (table m) (quitting m) (activeTab m) (tabs m) (gitData m) (dockerData m) (kubesData m) (width m) (height m) x (selectedImage m) (showPodDef m) (selectedPod m) (selectedPodNS m) (podDefTable m) (deployments m) (selectedDeployment m) (deploymentPods m) (selectedPod2 m) (modalStep m).
Definition set_selectedImage (x : string) (m : model) : model :=
  mkModel (table m) (quitting m) (activeTab m) (tabs m) (gitData m) (dockerData m) (kubesData m) (width m) (height m) (showModal m) x (showPodDef m) (selectedPod m) (selectedPodNS m) (podDefTable m) (deployments m) (selectedDeployment m) (deploymentPods m) (selectedPod2 m) (modalStep m).
Definition set_showPodDef (x : bool) (m : model) : model :=
  mkModel (table m) (quitting m) (activeTab m) (tabs m) (gitData m) (dockerData m) (kubesData m) (width m) (height m) (showModal m) (selectedImage m) x (selectedPod m) (selectedPodNS m) (podDefTable m) (deployments m) (selectedDeployment m) (deploymentPods m) (selectedPod2 m) (modalStep m).
Definition set_selectedPod (x : string) (m : model) : model :=
  mkModel (table m) (quitting m) (activeTab m) (tabs m) (gitData m) (dockerData m) (kubesData m) (width m) (height m) (showModal m) (selectedImage m) (showPodDef m) x (selectedPodNS m) (podDefTable m) (deployments m) (selectedDeployment m) (deploymentPods m) (selectedPod2 m) (modalStep m).
Definition set_selectedPodNS (x : string) (m : model) : model :=
  mkModel (table m) (quitting m) (activeTab m) (tabs m) (gitData m) (dockerData m) (kubesData m) (width m) (height m) (showModal m) (selectedImage m) (showPodDef m) (selectedPod m) x (podDefTable m) (deployments m) (selectedDeployment m) (deploymentPods m) (selectedPod2 m) (modalStep m).
Definition set_podDefTable (x : table_Model) (m : model) : model :=
  mkModel (table m) (quitting m) (activeTab m) (tabs m) (gitData m) (dockerData m) (kubesData m) (width m) (height m) (showModal m) (selectedImage m) (showPodDef m) (selectedPod m) (selectedPodNS m) x (deployments m) (selectedDeployment m) (deploymentPods m) (selectedPod2 m) (modalStep m).
Definition set_deployments (x : list TableData) (m : model) : model :=
  mkModel (table m) (quitting m) (activeTab m) (tabs m) (gitData m) (dockerData m) (kubesData m) (width m) (height m) (showModal m) (selectedImage m) (showPodDef m) (selectedPod m) (selectedPodNS m) (podDefTable m) x (selectedDeployment m) (deploymentPods m) (selectedPod2 m) (modalStep m).
Definition set_selectedDeployment (x : Z) (m : model) : model :=
  mkModel (table m) (quitting m) (activeTab m) (tabs m) (gitData m) (dockerData m) (kubesData m) (width m) (height m) (showModal m) (selectedImage m) (showPodDef m) (selectedPod m) (selectedPodNS m) (podDefTable m) (deployments m) x (deploymentPods m) (selectedPod2 m) (modalStep m).
Definition set_deploymentPods (x : list TableData) (m : model) : model :=
  mkModel (table m) (quitting m) (activeTab m) (tabs m) (gitData m) (dockerData m) (kubesData m) (width m) (height m) (showModal m) (selectedImage m) (showPodDef m) (selectedPod m) (selectedPodNS m) (podDefTable m) (deployments m) (selectedDeployment m) x (selectedPod2 m) (modalStep m).
Definition set_selectedPod2 (x : Z) (m : model) : model :=
  mkModel (table m) (quitting m) (activeTab m) (tabs m) (gitData m) (dockerData m) (kubesData m) (width m) (height m) (showModal m) (selectedImage m) (showPodDef m) (selectedPod m) (selectedPodNS m) (podDefTable m) (deployments m) (selectedDeployment m) (deploymentPods m) x (modalStep m).
Definition set_modalStep (x : Z) (m : model) : model :=
  mkModel (table m) (quitting m) (activeTab m) (tabs m) (gitData m) (dockerData m) (kubesData m) (width m) (height m) (showModal m) (selectedImage m) (showPodDef m) (selectedPod m) (selectedPodNS m) (podDefTable m) (deployments m) (selectedDeployment m) (deploymentPods m) (selectedPod2 m) x.

(** ** Row projection: [updateTableForTab] (tui.go, l. 307) *)

Definition gitColumns : list Column :=
  [mkColumn "Commit SHA" 42; mkColumn "PR Description" 40;
   mkColumn "Author" 20; mkColumn "PushedAt" 20].

Definition dockerColumns : list Column :=
  [mkColumn "Image ID" 20; mkColumn "Repository" 30; mkColumn "Tag" 15;
   mkColumn "Size" 12; mkColumn "Created" 25].

Definition kubesColumns : list Column :=
  [mkColumn "Pod Name" 35; mkColumn "Namespace" 15; mkColumn "Status" 12;
   mkColumn "Restarts" 10; mkColumn "Age" 15; mkColumn "Node" 20].

Definition git_row (item : TableData) : option Row :=
  let* d := truncateString (PRDescription item) 40 in
  Some [CommitSHA item; d; "N/A"; PushedAt item].

(** Repository and tag extracted from [ImageTag] (l. 361-381). *)
Definition docker_repository_tag (it : string) : string * string :=
  if (0 <? str_len it) && negb (String.eqb it "N/A") then
    let imageTag :=
      if HasPrefix it "localhost:5000/" then TrimPrefix it "localhost:5000/" else it in
    let lastColonIndex := LastIndexByte imageTag ":" in
    if lastColonIndex >? 0 then
      (substring 0 (Z.to_nat lastColonIndex) imageTag,
       substring (Z.to_nat (lastColonIndex + 1))
         (Z.to_nat (str_len imageTag - lastColonIndex - 1)) imageTag)
    else (imageTag, "latest")
  else ("N/A", "N/A").

Definition docker_row (item : TableData) : option Row :=
  let '(repository, tag) := docker_repository_tag (ImageTag item) in
  let* a := truncateString (ImageID item) 20 in
  let* b := truncateString repository 30 in
  let* c := truncateString tag 15 in
  let* d := truncateString (ImageSize item) 12 in
  let* e := truncateString (CreatedAt item) 25 in
  Some [a; b; c; d; e].

Definition kubes_row (item : TableData) : option Row :=
  let* a := truncateString (PodName item) 35 in
  let* f := truncateString (NodeName item) 20 in
  Some [a; Namespace item; Status item; Restarts item; Age item; f].

(** The fixed column schema of each tab (the [default] branch is Git's). *)
Definition tab_columns (t : Z) : list Column :=
  if t =? 0 then gitColumns
  else if t =? 1 then dockerColumns
  else if t =? 2 then kubesColumns
  else gitColumns.

(** The rows of each tab, derived from the cached data of the model. *)
Definition tab_rows (t : Z) (m : model) : option (list Row) :=
  if t =? 0 then
    match gitData m with
    | [] => Some [["No data available"; ""; ""; ""]]
    | gd => map_opt git_row gd
    end
  else if t =? 1 then map_opt docker_row (dockerData m)
  else if t =? 2 then map_opt kubes_row (kubesData m)
  else map_opt git_row (gitData m).

(** A panic while the rows are built is recovered by the deferred [recover]
    and leaves the table as it was. *)
Definition updateTableForTab (m : model) : model :=
  match cols (table m) with
  | [] => m
  | _ =>
      match tab_rows (activeTab m) m with
      | None => m
      | Some r => set_table (SetRows r (SetColumns (tab_columns (activeTab m)) (table m))) m
      end
  end.

(** ** Detail projection: [initPodDefTable] (tui.go, l. 696)

    A Go [map[string]string] is the association list of its entries in the
    order a [range] over it visits them (keys pairwise distinct); a nil map
    is [None]. *)

Definition orderedKeys : list string :=
  ["Name"; "Namespace"; "Status"; "Node"; "Pod IP"; "Host IP";
   "Created"; "Start Time"; "Service Account"; "Restart Policy"; "DNS Policy";
   "Container Name"; "Container Image"; "Image Pull Policy"; "Container Ports";
   "CPU Request"; "Memory Request"; "CPU Limit"; "Memory Limit";
   "Container Ready"; "Restart Count"; "Container ID";
   "Ready Condition"; "Scheduled Condition"; "Initialized Condition";
   "Labels"; "Annotations"].

Definition map_lookup (d : list (string * string)) (k : string) : option string :=
  match find (fun kv => String.eqb (fst kv) k) d with
  | Some (_, v) => Some v
  | None => None
  end.

Fixpoint ordered_rows (d : list (string * string)) (ks : list string) : option (list Row) :=
  match ks with
  | [] => Some []
  | key :: ks' =>
      match map_lookup d key with
      | Some value =>
          if negb (String.eqb value "") then
            let* v := truncateString value 70 in
            let* rest := ordered_rows d ks' in
            Some ([key; v] :: rest)
          else ordered_rows d ks'
      | None => ordered_rows d ks'
      end
  end.

Fixpoint remaining_rows (d : list (string * string)) : option (list Row) :=
  match d with
  | [] => Some []
  | (key, value) :: d' =>
      let found := existsb (String.eqb key) orderedKeys in
      if negb found && negb (String.eqb value "") then
        let* v := truncateString value 70 in
        let* rest := remaining_rows d' in
        Some ([key; v] :: rest)
      else remaining_rows d'
  end.

Definition podDefColumns : list Column := [mkColumn "Key" 35; mkColumn "Value" 70].

Definition errorRow : Row := ["Error"; "Failed to load pod details"].

Definition podDef_rows (details : option (list (string * string))) : option (list Row) :=
  match details with
  | Some d =>
      let* a := ordered_rows d orderedKeys in
      let* b := remaining_rows d in
      Some (app a b)
  | None => Some [errorRow]
  end.

Definition initPodDefTable (details : option (list (string * string))) (m : model)
  : option model :=
  let* r := podDef_rows details in
  Some (set_podDefTable (table_New podDefColumns r 20) m).

(** ** Messages and commands *)

(** The [tea.Cmd]s the controller returns, named by the closure they build. *)
Inductive cmd :=
| CmdNil
| CmdQuit
| CmdLoadDeployments
| CmdLoadPodDetails (pod namespace : string)
| CmdDeleteDockerImage (imageID : string)
| CmdPullDockerImage (imageTag : string)
| CmdDeployImageToPod (imageName deploymentName namespace : string)
| CmdCreateNewDeployment (imageName : string)
| CmdRefreshDockerData
| CmdWidget (n : nat)  (* a command of the table widget itself *).

(** The [tea.Msg]s [Update] distinguishes; an error is [Some detail]. *)
Inductive Msg :=
| deploymentsMsg (ds : list TableData)
| deploymentPodsMsg (pods : list TableData)
| podDetailsMsg (details : option (list (string * string))) (err : option string)
| dockerDeleteMsg (success : bool) (imageID : string) (err : option string)
| dockerPullMsg (success : bool) (imageTag : string) (err : option string)
| deploymentMsg (success : bool) (err : option string)
| dockerRefreshMsg (data : list TableData)
| WindowSizeMsg (w h : Z)
| KeyMsg (key : string)
| OtherMsg (n : nat).

(** ** The transition function [Update] (tui.go, l. 82) *)

(** How a [case] of the key [switch] ends: a [return], a panic, or leaving
    the [switch] to the widget update at its end. *)
Inductive keyOutcome :=
| KReturn (m : model) (c : cmd)
| KPanic
| KBreak.

Definition close_modal (m : model) : model := set_modalStep 0 (set_showModal false m).

Definition keyIs (k : string) (names : list string) : bool := existsb (String.eqb k) names.

(** The [case tea.KeyMsg] switch (l. 145-295). *)
Definition handleKey (m : model) (k : string) : keyOutcome :=
  if keyIs k ["ctrl+c"; "q"] then KReturn (set_quitting true m) CmdQuit
  else if keyIs k ["1"] then
    if showModal m then
      if modalStep m =? 0 then
        if selectedDeployment m =? -1 then KReturn (set_modalStep 1 m) CmdNil
        else KReturn (set_modalStep 2 m) CmdNil
      else if modalStep m =? 1 then
        let m := close_modal m in
        KReturn m (CmdCreateNewDeployment (selectedImage m))
      else
        let m := close_modal m in
        if (0 <? go_len (deployments m)) && (selectedDeployment m <? go_len (deployments m)) then
          match go_index (deployments m) (selectedDeployment m) with
          | Some d => KReturn m (CmdDeployImageToPod (selectedImage m) (PodName d) (Namespace d))
          | None => KPanic
          end
        else KReturn m CmdNil
    else KReturn (updateTableForTab (set_activeTab 0 m)) CmdNil
  else if keyIs k ["2"] then
    if showModal m then
      if modalStep m =? 1 then KReturn (set_modalStep 0 m) CmdNil
      else if modalStep m =? 2 then KReturn (set_modalStep 0 m) CmdNil
      else KReturn (close_modal m) CmdNil
    else KReturn (updateTableForTab (set_activeTab 1 m)) CmdNil
  else if keyIs k ["3"] then
    if showModal m then KReturn m CmdNil
    else KReturn (updateTableForTab (set_activeTab 2 m)) CmdNil
  else if keyIs k ["tab"] then
    (* [%] by [len(m.tabs)] panics on an empty slice *)
    if go_len (tabs m) =? 0 then KPanic
    else KReturn (updateTableForTab
                    (set_activeTab (Z.rem (activeTab m + 1) (go_len (tabs m))) m)) CmdNil
  else if keyIs k ["enter"] then
    if (activeTab m =? 1) && (0 <? go_len (dockerData m)) then
      let selectedRow := cursor (table m) in
      if selectedRow <? go_len (dockerData m) then
        match go_index (dockerData m) selectedRow with
        | Some imageData =>
            let img := if String.eqb (ImageTag imageData) "" then ImageID imageData
                       else ImageTag imageData in
            let m := set_showModal true (set_selectedPod2 0 (set_selectedDeployment (-1)
                       (set_modalStep 0 (set_selectedImage img m)))) in
            KReturn m CmdLoadDeployments
        | None => KPanic
        end
      else KReturn m CmdNil
    else if (activeTab m =? 2) && (0 <? go_len (kubesData m)) then
      let selectedRow := cursor (table m) in
      if selectedRow <? go_len (kubesData m) then
        match go_index (kubesData m) selectedRow with
        | Some kd =>
            let m := set_showPodDef true (set_selectedPodNS (Namespace kd)
                       (set_selectedPod (PodName kd) m)) in
            KReturn m (CmdLoadPodDetails (selectedPod m) (selectedPodNS m))
        | None => KPanic
        end
      else KReturn m CmdNil
    else KReturn m CmdNil
  else if keyIs k ["esc"] then
    if showModal m then KReturn (close_modal m) CmdNil
    else if showPodDef m then KReturn (set_showPodDef false m) CmdNil
    else KReturn (set_quitting true m) CmdQuit
  else if keyIs k ["up"; "k"] then
    if showModal m && (modalStep m =? 0) then
      if (0 <? go_len (deployments m)) && (selectedDeployment m >? -1) then
        KReturn (set_selectedDeployment (selectedDeployment m - 1) m) CmdNil
      else KReturn m CmdNil
    else KBreak
  else if keyIs k ["down"; "j"] then
    if showModal m && (modalStep m =? 0) then
      if (0 <? go_len (deployments m))
         && (selectedDeployment m <? go_len (deployments m) - 1) then
        KReturn (set_selectedDeployment (selectedDeployment m + 1) m) CmdNil
      else KReturn m CmdNil
    else KBreak
  else if keyIs k ["ctrl+d"] then
    if (activeTab m =? 1) && (0 <? go_len (dockerData m)) && negb (showModal m) then
      let selectedRow := cursor (table m) in
      if selectedRow <? go_len (dockerData m) then
        match go_index (dockerData m) selectedRow with
        | Some d => KReturn m (CmdDeleteDockerImage (ImageID d))
        | None => KPanic
        end
      else KBreak
    else KBreak
  else if keyIs k ["ctrl+p"] then
    if (activeTab m =? 1) && (0 <? go_len (dockerData m)) && negb (showModal m) then
      let selectedRow := cursor (table m) in
      if selectedRow <? go_len (dockerData m) then
        match go_index (dockerData m) selectedRow with
        | Some d =>
            let imageTag := ImageTag d in
            if negb (String.eqb imageTag "") && negb (String.eqb imageTag "N/A")
            then KReturn m (CmdPullDockerImage imageTag)
            else KBreak
        | None => KPanic
        end
      else KBreak
    else KBreak
  else KBreak.

Section Controller.

(** [table.Model.Update] of the widget library, applied to the focused table
    at the end of [Update] (l. 299-304). *)
Variable table_Update : Msg -> table_Model -> table_Model * cmd.

Definition widget_update (m : model) (msg : Msg) : model * cmd :=
  if showPodDef m then
    let '(t, c) := table_Update msg (podDefTable m) in (set_podDefTable t m, c)
  else
    let '(t, c) := table_Update msg (table m) in (set_table t m, c).

Definition Update (m : model) (msg : Msg) : option (model * cmd) :=
  match msg with
  | deploymentsMsg ds => Some (set_deployments ds m, CmdNil)
  | deploymentPodsMsg pods => Some (set_deploymentPods pods m, CmdNil)
  | podDetailsMsg details err =>
      let* m' := initPodDefTable (match err with None => details | Some _ => None end) m in
      Some (m', CmdNil)
  | dockerDeleteMsg success _ _ =>
      if success then Some (m, CmdRefreshDockerData) else Some (m, CmdNil)
  | dockerPullMsg success _ _ =>
      if success then Some (m, CmdRefreshDockerData) else Some (m, CmdNil)
  | deploymentMsg success _ =>
      if success then Some (set_table (SetCursor 0 (table m)) m, CmdLoadDeployments)
      else Some (m, CmdNil)
  | dockerRefreshMsg data =>
      let m := set_dockerData data m in
      Some (if activeTab m =? 1 then updateTableForTab m else m, CmdNil)
  | WindowSizeMsg w h =>
      let m := set_table (SetHeight (h - 15) (SetWidth w (table m)))
                 (set_height h (set_width w m)) in
      let m := match cols (podDefTable m) with
               | [] => m
               | _ => set_podDefTable (SetHeight (h - 15) (SetWidth w (podDefTable m))) m
               end in
      Some (m, CmdNil)
  | KeyMsg k =>
      match handleKey m k with
      | KReturn m' c => Some (m', c)
      | KPanic => None
      | KBreak => Some (widget_update m msg)
      end
  | OtherMsg _ => Some (widget_update m msg)
  end.

(** Running a sequence of messages, collecting the returned commands. *)
Fixpoint run (m : model) (msgs : list Msg) : option (model * list cmd) :=
  match msgs with
  | [] => Some (m, [])
  | msg :: msgs' =>
      let* r := Update m msg in
      let '(m1, c) := r in
      let* r' := run m1 msgs' in
      let '(m2, cs) := r' in
      Some (m2, c :: cs)
  end.

End Controller.

(** The model [startTUI] builds (l. 894-942); the zero value elsewhere. *)
Definition startTUI (gitData dockerData kubernetesData : list TableData) : option model :=
  let* gitRows := map_opt git_row gitData in
  Some (mkModel (table_New gitColumns gitRows 10) false 0 ["Git"; "Docker"; "Kubernetes"]
          gitData dockerData kubernetesData 0 0 false "" false "" ""
          (mkTable [] [] 0 0 0) [] 0 [] 0 0).

(** States reachable from a startup model by any sequence of messages (key
    events and completions alike). *)
Inductive reachable (table_Update : Msg -> table_Model -> table_Model * cmd) : model -> Prop :=
| reach_init g d k m0 : startTUI g d k = Some m0 -> reachable table_Update m0
| reach_step m msg m' c :
    reachable table_Update m -> Update table_Update m msg = Some (m', c) ->
    reachable table_Update m'.

(** ** What [renderModal] shows (tui.go, l. 528) *)

(** The selectable lines of the deployment-selection step: label and whether
    the line carries the arrow prefix (l. 535-557). *)
Fixpoint deployment_lines (ds : list TableData) (i selected : Z) : list (string * bool) :=
  match ds with
  | [] => []
  | d :: ds' =>
      (PodName d ++ " (" ++ Namespace d ++ ") - " ++ Status d, i =? selected)
        :: deployment_lines ds' (i + 1) selected
  end.

Definition renderModal_targets (m : model) : list (string * bool) :=
  match deployments m with
  | [] => [("[Create New Deployment]", true)]
  | ds => ("[Create New Deployment]", selectedDeployment m =? -1)
            :: deployment_lines ds 0 (selectedDeployment m)
  end.

Inductive modalView :=
| SelectTargetView (entries : list (string * bool))
| CreateConfirmView (image deploymentName : string)
| UpdateConfirmView (image deployment : string).

Definition renderModal (m : model) : option modalView :=
  if modalStep m =? 0 then Some (SelectTargetView (renderModal_targets m))
  else if modalStep m =? 1 then
    Some (CreateConfirmView (selectedImage m) (deploymentNameFor (selectedImage m)))
  else
    let* selectedDep :=
      if (0 <? go_len (deployments m)) && (selectedDeployment m <? go_len (deployments m))
      then match go_index (deployments m) (selectedDeployment m) with
           | Some d => Some (PodName d)
           | None => None
           end
      else Some "" in
    Some (UpdateConfirmView (selectedImage m) selectedDep).

(** ** Tab selection events *)

Inductive tabKey := Key1 | Key2 | Key3 | KeyTab.

Definition tabKey_msg (k : tabKey) : Msg :=
  KeyMsg (match k with Key1 => "1" | Key2 => "2" | Key3 => "3" | KeyTab => "tab" end).

(** The tab an event selects, from the active one (three tabs). *)
Definition tab_selected (current : Z) (k : tabKey) : Z :=
  match k with
  | Key1 => 0
  | Key2 => 1
  | Key3 => 2
  | KeyTab => Z.rem (current + 1) 3
  end.

(** A widget that ignores every message, to run concrete scenarios. *)
Definition idle_widget : Msg -> table_Model -> table_Model * cmd := fun _ t => (t, CmdNil).

(** The image row of the wizard scenario. *)
Definition scenario_image : TableData :=
  mkTableData "" "" "abc123" "" "localhost:5000/app:v1" "" "" "" "" "" "" "" "".

(** The model [startTUI [] [scenario_image] []] builds. *)
Definition startup_model : model :=
  mkModel (table_New gitColumns [] 10) false 0 ["Git"; "Docker"; "Kubernetes"]
    [] [scenario_image] [] 0 0 false "" false "" "" (mkTable [] [] 0 0 0) [] 0 [] 0 0.

(** The state after the keys "2" and "enter" from [startup_model]: the
    wizard open on the scenario image. *)
Definition wizard_model : model :=
  mkModel (table_New dockerColumns [["abc123"; "app"; "v1"; ""; ""]] 10) false 1 ["Git"; "Docker"; "Kubernetes"]
    [] [scenario_image] [] 0 0 true "localhost:5000/app:v1" false "" ""
    (mkTable [] [] 0 0 0) [] (-1) [] 0 0.

(** [wizard_model] with the modal closed and the table cursor at -1, the
    value [SetCursor] gives on an empty table. *)
Definition negative_cursor_model : model :=
  set_table (mkTable dockerColumns [] (-1) 0 10) (set_showModal false wizard_model).

(** The invariant of the candidate index and the wizard step. *)
Definition cursor_inv (m : model) : Prop :=
  -1 <= selectedDeployment m /\ 0 <= modalStep m <= 2 /\
  (modalStep m = 2 -> 0 <= selectedDeployment m).

(** The detail projection stated directly: named keys in order, then the
    other keys in iteration order, entries with an empty value left out. *)
Definition lookup_value (d : list (string * string)) (k : string) : string :=
  match map_lookup d k with Some v => v | None => "" end.

Definition trunc70 (v : string) : string :=
  match truncateString v 70 with Some t => t | None => v end.

Definition detail_projection (d : list (string * string)) : list Row :=
  app (map (fun k => [k; trunc70 (lookup_value d k)])
         (filter (fun k => negb (String.eqb (lookup_value d k) "")) orderedKeys))
      (map (fun kv => [fst kv; trunc70 (snd kv)])
         (filter (fun kv => negb (existsb (String.eqb (fst kv)) orderedKeys)
                            && negb (String.eqb (snd kv) "")) d)).

(** ** Image listing (main.go, tui.go [refreshDockerData]) *)

Module Docker.
(** [DockerImage] (main.go, l. 45). *)
Record DockerImage := mkDockerImage {
  ID : string; RepoTags : list string; Size : string; CreatedAt : string }.
End Docker.

(** One [TableData] row built by [refreshDockerData] (tui.go, l. 855-876). *)
Definition dockerImage_row (dockerImg : Docker.DockerImage) : TableData :=
  let imageID := if 20 <? str_len (Docker.ID dockerImg)
                 then substring 0 20 (Docker.ID dockerImg) else Docker.ID dockerImg in
  let imageTag := match Docker.RepoTags dockerImg with
                  | t :: _ => if String.eqb t "<none>:<none>" then "N/A" else t
                  | [] => "N/A"
                  end in
  let imageSize := if String.eqb (Docker.Size dockerImg) ""
                      || String.eqb (Docker.Size dockerImg) "N/A"
                   then "N/A" else Docker.Size dockerImg in
  mkTableData "" "" imageID imageSize imageTag "" (Docker.CreatedAt dockerImg)
    "" "" "" "" "" "".

(** The message the command of [refreshDockerData] returns, from the result
    of [getDockerImagesInfo]: the images, or an error detail. *)
Definition refreshDockerData_msg (r : list Docker.DockerImage + string) : Msg :=
  match r with
  | inl dockerImages => dockerRefreshMsg (map dockerImage_row dockerImages)
  | inr e => dockerDeleteMsg false "" (Some e)
  end.

(** [strings.Split(s, sep)] for a one-byte [sep]. *)
Fixpoint split_byte_aux (s : string) (c : ascii) (cur : string) : list string :=
  match s with
  | EmptyString => [cur]
  | String a s' =>
      if Ascii.eqb a c then cur :: split_byte_aux s' c ""
      else split_byte_aux s' c (cur ++ String a "")
  end.

Definition SplitByte (s : string) (c : ascii) : list string := split_byte_aux s c "".


Definition bytes_of (l : list nat) : string :=
  fold_right (fun n s => String (ascii_of_nat n) s) EmptyString l.

Definition space_encodings : list string :=
  map bytes_of
    [[9]; [10]; [11]; [12]; [13]; [32]; [194; 133]; [194; 160]; [225; 154; 128];
     [226; 128; 128]; [226; 128; 129]; [226; 128; 130]; [226; 128; 131];
     [226; 128; 132]; [226; 128; 133]; [226; 128; 134]; [226; 128; 135];
     [226; 128; 136]; [226; 128; 137]; [226; 128; 138]; [226; 128; 168];
     [226; 128; 169]; [226; 128; 175]; [226; 129; 159]; [227; 128; 128]]%nat.

(** Drop leading occurrences of the byte strings [ps] (none of them empty),
    at most [fuel] times. *)
Fixpoint trim_leading (ps : list string) (fuel : nat) (s : string) : string :=
  match fuel with
  | O => s
  | S fuel' =>
      match find (fun p => String.prefix p s) ps with
      | Some p =>
          trim_leading ps fuel'
            (substring (String.length p) (String.length s - String.length p) s)
      | None => s
      end
  end.

(** [strings.TrimLeftFunc(s, unicode.IsSpace)]. *)
Definition TrimLeftSpace (s : string) : string :=
  trim_leading space_encodings (String.length s) s.

(** [strings.TrimRightFunc(s, unicode.IsSpace)]: a suffix of [s] is a
    prefix of its reversal. *)
Definition TrimRightSpace (s : string) : string :=
  rev_string (trim_leading (map rev_string space_encodings) (String.length s) (rev_string s)).

Definition TrimSpace (s : string) : string := TrimRightSpace (TrimLeftSpace s).

Definition notFoundImage : Docker.DockerImage :=
  Docker.mkDockerImage "Not Found" ["N/A"] "N/A" "N/A".
Definition parseErrorImage : Docker.DockerImage :=
  Docker.mkDockerImage "Parse Error" ["N/A"] "N/A" "N/A".

(** The image of one [docker images] line, when it has at least 4 fields. *)
Definition image_of_parts (parts : list string) : option Docker.DockerImage :=
  match parts with
  | p0 :: p1 :: p2 :: p3 :: _ => Some (Docker.mkDockerImage p0 [p1] p2 p3)
  | _ => None
  end.

(** [getLocalDockerImages] (main.go, l. 283) once [docker images] has
    succeeded with [output]. *)
Definition getLocalDockerImages_output (output : string) : list Docker.DockerImage :=
  if (String.length output =? 0)%nat then [notFoundImage]
  else
    let lines := SplitByte (TrimSpace output) "010" in
    match lines with
    | [] => [notFoundImage]
    | _ =>
        let images := flat_map (fun line =>
                        match image_of_parts (SplitByte line ",") with
                        | Some i => [i]
                        | None => []
                        end) lines in
        match images with
        | [] => [parseErrorImage]
        | _ => images
        end
    end.

(** A line as [docker images --format "{{.ID}},{{.Repository}}:{{.Tag}},{{.Size}},{{.CreatedAt}}"]
    prints it, from its four fields. *)
Definition docker_line (f : string * string * string * string) : string :=
  let '(id, reptag, size, created) := f in
  id ++ "," ++ reptag ++ "," ++ size ++ "," ++ created.

(** ** Pod details through kubectl (main.go, [getPodDetailsViaKubectl]) *)

(** [strings.Contains]. *)
Definition Contains (s substr : string) : bool :=
  match String.index 0 substr s with Some _ => true | None => false end.

(** [details[k] = v] on the map as association list: an existing key keeps
    its place, a new key is added at the end. *)
Fixpoint map_insert (d : list (string * string)) (k v : string) : list (string * string) :=
  match d with
  | [] => [(k, v)]
  | (k', v') :: d' => if String.eqb k' k then (k, v) :: d' else (k', v') :: map_insert d' k v
  end.

(** The body of the loop over the lines of [kubectl get pod -o yaml]. *)
Definition kubectl_detail_line (details : list (string * string)) (line : string)
  : list (string * string) :=
  let line := TrimSpace line in
  let details := if Contains line "phase:"
                 then map_insert details "Status" (TrimSpace (TrimPrefix line "phase:"))
                 else details in
  let details := if Contains line "nodeName:"
                 then map_insert details "Node" (TrimSpace (TrimPrefix line "nodeName:"))
                 else details in
  let details := if Contains line "restartCount:"
                 then map_insert details "Restarts" (TrimSpace (TrimPrefix line "restartCount:"))
                 else details in
  if Contains line "image:" then
    match map_lookup details "Image" with
    | Some _ => details
    | None => map_insert details "Image" (TrimSpace (TrimPrefix line "image:"))
    end
  else details.

(** [getPodDetailsViaKubectl] (main.go, l. 1542) once kubectl has succeeded
    with [output]. *)
Definition getPodDetailsViaKubectl_output (podName namespace output : string)
  : list (string * string) :=
  let details := map_insert (map_insert [] "Name" podName) "Namespace" namespace in
  fold_left kubectl_detail_line (SplitByte output "010") details.

(** ** Text helpers (helpers/textutils.go) *)

Definition maxLength : Z := 45.

(** [TrimText]: the first 45 bytes of a longer text. *)
Definition TrimText (text : string) : string :=
  if maxLength <? str_len text then substring 0 (Z.to_nat maxLength) text else text.

Fixpoint zero_bytes (n : nat) : string :=
  match n with
  | O => EmptyString
  | S n' => String (ascii_of_nat 0) (zero_bytes n')
  end.

Definition targetLength : Z := 45.

(** [PadText]: [string(make([]byte, padding))] appends [padding] zero bytes. *)
Definition PadText (text : string) : string :=
  if targetLength <=? str_len text then text
  else text ++ zero_bytes (Z.to_nat (targetLength - str_len text)).

(** Whether a byte occurs in a string. *)
Fixpoint has_byte (s : string) (c : ascii) : bool :=
  match s with
  | EmptyString => false
  | String a s' => Ascii.eqb a c || has_byte s' c
  end.

(** Leading and trailing white space, the line fields that survive the
    listing format, and the image a well-formed line describes. *)
Definition starts_with_space (s : string) : bool :=
  existsb (fun p => String.prefix p s) space_encodings.

Definition ends_with_space (s : string) : bool :=
  existsb (fun p => String.prefix p (rev_string s)) (map rev_string space_encodings).

Definition clean_field (s : string) : bool :=
  negb (has_byte s ",") && negb (has_byte s "010").

Definition docker_image_of (f : string * string * string * string) : Docker.DockerImage :=
  let '(id, reptag, size, created) := f in Docker.mkDockerImage id [reptag] size created.

(** The shape every reachable model keeps: the three fixed tabs, an active
    tab among them, and the wizard step at its first value while the modal is
    closed. *)
Definition shape_inv (m : model) : Prop :=
  tabs m = ["Git"; "Docker"; "Kubernetes"] /\ (0 <= activeTab m <= 2) /\
  (showModal m = false -> modalStep m = 0).

(** ** Basic lemmas *)

Lemma length_append (s t : string) :
  String.length (s ++ t) = (String.length s + String.length t)%nat.
Proof. induction s as [|c s IH]; simpl; auto. Qed.

Lemma length_substring0 (n : nat) (s : string) :
  (n <= String.length s)%nat -> String.length (substring 0 n s) = n.
Proof.
  revert n; induction s as [|c s IH]; intros [|n] Hn; simpl in *; auto; try lia.
  rewrite IH; lia.
Qed.

Lemma truncateString_some (s : string) (w : Z) :
  3 <= w -> exists t, truncateString s w = Some t.
Proof.
  intros Hw; unfold truncateString.
  destruct (str_len s <=? w); [eauto|].
  destruct (w - 3 <? 0) eqn:E; [apply Z.ltb_lt in E; lia | eauto].
Qed.

Lemma map_opt_some {A B : Type} (f : A -> option B) (l : list A) :
  (forall x, exists y, f x = Some y) -> exists ys, map_opt f l = Some ys.
Proof.
  intros Hf; induction l as [|x l IH]; simpl; eauto.
  destruct (Hf x) as [y ->]; destruct IH as [ys ->]; eauto.
Qed.

Ltac trunc_some s w :=
  let t := fresh "t" in
  let E := fresh "Et" in
  destruct (truncateString_some s w ltac:(lia)) as [t E]; rewrite E.

Lemma git_row_some (x : TableData) : exists r, git_row x = Some r.
Proof. unfold git_row; trunc_some (PRDescription x) 40; eauto. Qed.

Lemma docker_row_some (x : TableData) : exists r, docker_row x = Some r.
Proof.
  unfold docker_row; destruct (docker_repository_tag (ImageTag x)) as [rp tg].
  trunc_some (ImageID x) 20; trunc_some rp 30; trunc_some tg 15;
  trunc_some (ImageSize x) 12; trunc_some (CreatedAt x) 25; eauto.
Qed.

Lemma kubes_row_some (x : TableData) : exists r, kubes_row x = Some r.
Proof. unfold kubes_row; trunc_some (PodName x) 35; trunc_some (NodeName x) 20; eauto. Qed.

(** The row projection of every tab succeeds: no panic is ever recovered. *)
Lemma tab_rows_some (t : Z) (m : model) : exists r, tab_rows t m = Some r.
Proof.
  unfold tab_rows.
  destruct (t =? 0); [destruct (gitData m); [eauto|] |];
    [apply map_opt_some, git_row_some|];
    destruct (t =? 1); [apply map_opt_some, docker_row_some|];
    destruct (t =? 2); [apply map_opt_some, kubes_row_some|apply map_opt_some, git_row_some].
Qed.

(** [updateTableForTab] only replaces the main table. *)
Lemma updateTableForTab_set_table (m : model) :
  exists t, updateTableForTab m = set_table t m.
Proof.
  unfold updateTableForTab.
  destruct (cols (table m)); [exists (table m); destruct m; reflexivity|].
  destruct (tab_rows (activeTab m) m); eauto.
  exists (table m); destruct m; reflexivity.
Qed.

Lemma widget_update_fields (tu : Msg -> table_Model -> table_Model * cmd) (m : model) (msg : Msg) :
  exists t pt c, widget_update tu m msg = (set_podDefTable pt (set_table t m), c).
Proof.
  unfold widget_update; destruct (showPodDef m).
  - destruct (tu msg (podDefTable m)) as [t c]; exists (table m), t, c; destruct m; reflexivity.
  - destruct (tu msg (table m)) as [t c]; exists t, (podDefTable m), c; destruct m; reflexivity.
Qed.

Lemma run_reachable (tu : Msg -> table_Model -> table_Model * cmd) (msgs : list Msg) :
  forall m m' cs, reachable tu m -> run tu m msgs = Some (m', cs) -> reachable tu m'.
Proof.
  induction msgs as [|msg msgs IH]; simpl; intros m m' cs Hr Hrun.
  - congruence.
  - destruct (Update tu m msg) as [[m1 c]|] eqn:E; [|discriminate].
    destruct (run tu m1 msgs) as [[m2 cs']|] eqn:E2; [|discriminate].
    inversion Hrun; subst.
    eapply IH; [eapply reach_step; eauto | eauto].
Qed.

Lemma wizard_model_reachable : reachable idle_widget wizard_model.
Proof.
  eapply (run_reachable idle_widget [KeyMsg "2"; KeyMsg "enter"]).
  - eapply (reach_init idle_widget [] [scenario_image] []); reflexivity.
  - reflexivity.
Qed.

(** The wizard opened on the scenario image, reached from startup. *)
Lemma scenario_wizard_reachable :
  exists m, reachable idle_widget m /\
    startTUI [] [scenario_image] [] = Some startup_model /\ showModal m = true /\
    selectedImage m = "localhost:5000/app:v1" /\ selectedDeployment m = -1.
Proof.
  exists wizard_model; split; [exact wizard_model_reachable|]. repeat split.
Qed.

(** ** C1: quitting *)

(** Claim C1 (counterexample): with the wizard modal open, in a state
    reached from startup, the key "q" still quits. *)
Lemma quit_key_with_modal_open :
  exists m m', reachable idle_widget m /\ showModal m = true /\
    Update idle_widget m (KeyMsg "q") = Some (m', CmdQuit) /\ quitting m' = true.
Proof.
  destruct scenario_wizard_reachable as [m [Hr [_ [Hs _]]]].
  exists m, (set_quitting true m); repeat split; auto.
Qed.

(** Claim C1 (amended): "q" and ctrl-c quit in every state, modal or detail
    view open or not; Esc closes an open modal, else an open detail view, and
    quits only when neither is open. *)
Theorem quit_keys_and_esc (tu : Msg -> table_Model -> table_Model * cmd) (m : model) :
  Update tu m (KeyMsg "q") = Some (set_quitting true m, CmdQuit) /\
  Update tu m (KeyMsg "ctrl+c") = Some (set_quitting true m, CmdQuit) /\
  Update tu m (KeyMsg "esc") =
    Some (if showModal m then (close_modal m, CmdNil)
          else if showPodDef m then (set_showPodDef false m, CmdNil)
          else (set_quitting true m, CmdQuit)).
Proof.
  repeat split; unfold Update, handleKey; simpl;
    destruct (showModal m), (showPodDef m); reflexivity.
Qed.

(** ** C3: truncation *)

(** Claim C3 (counterexample): for a width below 3 a longer string makes
    [truncateString] panic on the slice [s[:maxLen-3]]. *)
Lemma truncateString_width_2_panics : ~ (exists t, truncateString "abc" 2 = Some t).
Proof. intros [t H]; discriminate H. Qed.

(** Claim C3 (amended): for every width of at least 3, truncation returns a
    string of length at most the width, is idempotent, keeps strings that fit
    and cuts longer ones to [w-3] bytes followed by "..."; for every width
    below 3, a longer string makes the slice [s[:w-3]] panic. *)
Theorem truncateString_idempotent_bounded (s : string) (w : Z) :
  (3 <= w ->
   exists t, truncateString s w = Some t /\ truncateString t w = Some t /\
     str_len t <= w /\
     (str_len s <= w -> t = s) /\
     (w < str_len s -> t = substring 0 (Z.to_nat (w - 3)) s ++ "..." /\ str_len t = w)) /\
  (w < 3 -> w < str_len s -> truncateString s w = None).
Proof.
  split.
  - intros Hw. unfold truncateString.
    destruct (str_len s <=? w) eqn:E.
    + exists s; rewrite E. apply Z.leb_le in E. repeat split; auto; lia.
    + apply Z.leb_gt in E.
      destruct (w - 3 <? 0) eqn:E3; [apply Z.ltb_lt in E3; lia|].
      assert (Hl : str_len (substring 0 (Z.to_nat (w - 3)) s ++ "...") = w).
      { unfold str_len in *. rewrite length_append, length_substring0 by lia. simpl. lia. }
      eexists; split; [reflexivity|].
      rewrite Hl, Z.leb_refl. repeat split; auto; lia.
  - intros Hw Hs. unfold truncateString.
    replace (str_len s <=? w) with false by (symmetry; apply Z.leb_gt; lia).
    replace (w - 3 <? 0) with true by (symmetry; apply Z.ltb_lt; lia).
    reflexivity.
Qed.

Lemma truncateString_idempotent_bounded_witness :
  3 <= 8 /\ truncateString "hello world" 8 = Some "hello..." /\
  (exists t, truncateString "hello world" 8 = Some t /\ truncateString t 8 = Some t /\
    str_len t <= 8 /\ (str_len "hello world" <= 8 -> t = "hello world") /\
    (8 < str_len "hello world" ->
       t = substring 0 (Z.to_nat (8 - 3)) "hello world" ++ "..." /\ str_len t = 8)) /\
  truncateString "ab" 1 = None.
Proof.
  split; [lia|]. split; [reflexivity|]. split.
  - apply (proj1 (truncateString_idempotent_bounded "hello world" 8)); lia.
  - apply (proj2 (truncateString_idempotent_bounded "ab" 1)); [lia|reflexivity].
Defined.

(** ** C4: the wizard steps *)

(** Claim C4: with the modal open, "1" in SelectTarget (step 0) goes in one
    step to CreateConfirm (step 1) when the candidate is the "create new"
    sentinel -1 and to UpdateConfirm (step 2) otherwise; "2" in either
    confirmation step goes back to SelectTarget.  No command is issued. *)
Theorem modal_steps_never_skip (tu : Msg -> table_Model -> table_Model * cmd) (m : model)
  (Hmodal : showModal m = true) :
  (modalStep m = 0 ->
   exists m', Update tu m (KeyMsg "1") = Some (m', CmdNil) /\ showModal m' = true /\
     modalStep m' = (if selectedDeployment m =? -1 then 1 else 2)) /\
  (modalStep m = 1 \/ modalStep m = 2 ->
   exists m', Update tu m (KeyMsg "2") = Some (m', CmdNil) /\ showModal m' = true /\
     modalStep m' = 0).
Proof.
  split.
  - intros H0. unfold Update, handleKey; simpl. rewrite Hmodal, H0; simpl.
    destruct (selectedDeployment m =? -1); eexists; repeat split; cbn; auto.
  - intros [H|H]; unfold Update, handleKey; simpl; rewrite Hmodal, H; simpl;
      eexists; repeat split; cbn; auto.
Qed.

Lemma modal_steps_never_skip_witness :
  showModal wizard_model = true /\
  (modalStep wizard_model = 0 ->
   exists m', Update idle_widget wizard_model (KeyMsg "1") = Some (m', CmdNil) /\
     showModal m' = true /\
     modalStep m' = (if selectedDeployment wizard_model =? -1 then 1 else 2)) /\
  (modalStep wizard_model = 1 \/ modalStep wizard_model = 2 ->
   exists m', Update idle_widget wizard_model (KeyMsg "2") = Some (m', CmdNil) /\
     showModal m' = true /\ modalStep m' = 0).
Proof.
  split; [reflexivity|].
  apply (modal_steps_never_skip idle_widget wizard_model); reflexivity.
Defined.

(** ** C5: delete and pull completions *)

(** Claim C5: a failed delete or pull completion returns the model unchanged
    (so the image rows too) with no command; a successful one issues the
    image refresh. *)
Theorem docker_completion_refresh (tu : Msg -> table_Model -> table_Model * cmd)
  (m : model) (imageID imageTag : string) (err : option string) :
  Update tu m (dockerDeleteMsg false imageID err) = Some (m, CmdNil) /\
  Update tu m (dockerPullMsg false imageTag err) = Some (m, CmdNil) /\
  Update tu m (dockerDeleteMsg true imageID err) = Some (m, CmdRefreshDockerData) /\
  Update tu m (dockerPullMsg true imageTag err) = Some (m, CmdRefreshDockerData).
Proof. repeat split. Qed.

(** ** C6: deployment completions *)

(** Claim C6: a successful create/update completion puts the main table's
    cursor on the first row (when the table has one) and issues the
    deployment-list reload. *)
Theorem deployment_success_resets_and_reloads (tu : Msg -> table_Model -> table_Model * cmd)
  (m : model) (err : option string) :
  exists m', Update tu m (deploymentMsg true err) = Some (m', CmdLoadDeployments) /\
    rows (table m') = rows (table m) /\
    (rows (table m) <> [] -> cursor (table m') = 0).
Proof.
  eexists; split; [reflexivity|]. split; [reflexivity|].
  intros Hne; simpl. destruct (rows (table m)) as [|r rs]; [congruence|].
  unfold go_len; simpl length. lia.
Qed.

(** ** C7: the detail view *)

Lemma filter_nil_iff {A : Type} (f : A -> bool) (l : list A) :
  filter f l = [] <-> forall x, In x l -> f x = false.
Proof.
  induction l as [|x l IH]; simpl; [split; auto; tauto|].
  destruct (f x) eqn:E; split; intros H.
  - discriminate.
  - rewrite (H x (or_introl eq_refl)) in E; discriminate.
  - intros y [<-|Hy]; auto. apply IH; auto.
  - apply IH; auto.
Qed.

Lemma app_map_nil_iff {A B C : Type} (f : A -> C) (g : B -> C) (l1 : list A) (l2 : list B) :
  app (map f l1) (map g l2) = [] <-> l1 = [] /\ l2 = [].
Proof. destruct l1, l2; simpl; split; intuition congruence. Qed.

Lemma trunc70_spec (v : string) : truncateString v 70 = Some (trunc70 v).
Proof.
  unfold trunc70. destruct (truncateString_some v 70 ltac:(lia)) as [t E]. rewrite E; auto.
Qed.

Lemma ordered_rows_spec (d : list (string * string)) (ks : list string) :
  ordered_rows d ks =
  Some (map (fun k => [k; trunc70 (lookup_value d k)])
          (filter (fun k => negb (String.eqb (lookup_value d k) "")) ks)).
Proof.
  induction ks as [|key ks IH]; simpl; auto.
  unfold lookup_value at 2 3. destruct (map_lookup d key) as [value|] eqn:E.
  - destruct (negb (String.eqb value "")); [|exact IH].
    rewrite trunc70_spec, IH. simpl. unfold lookup_value; rewrite E; reflexivity.
  - exact IH.
Qed.

Lemma remaining_rows_spec (d : list (string * string)) :
  remaining_rows d =
  Some (map (fun kv => [fst kv; trunc70 (snd kv)])
          (filter (fun kv => negb (existsb (String.eqb (fst kv)) orderedKeys)
                             && negb (String.eqb (snd kv) "")) d)).
Proof.
  induction d as [|[key value] d IH]; [reflexivity|].
  cbn [remaining_rows filter map fst snd].
  destruct (negb (existsb (String.eqb key) orderedKeys) && negb (String.eqb value "")).
  - rewrite trunc70_spec, IH. reflexivity.
  - exact IH.
Qed.

Lemma in_orderedKeys (k : string) : existsb (String.eqb k) orderedKeys = true <-> In k orderedKeys.
Proof.
  rewrite existsb_exists. split.
  - intros [x [Hx E]]. apply String.eqb_eq in E; subst; auto.
  - intros H. exists k; split; auto. apply String.eqb_refl.
Qed.

(** Claim C7 (counterexample): a successful detail completion whose map is
    empty leaves the detail table of a reachable state without rows. *)
Lemma pod_details_success_empty_rows :
  exists m m', reachable idle_widget m /\
    Update idle_widget m (podDetailsMsg (Some []) None) = Some (m', CmdNil) /\
    rows (podDefTable m') = [].
Proof.
  destruct scenario_wizard_reachable as [m [Hr _]].
  eexists m, _; split; [exact Hr|]. split; reflexivity.
Qed.

(** Claim C7 (amended): a failed detail completion (an error, or no map)
    yields exactly the single error row; a successful one yields the named
    keys with a non-empty value in their declared order, then every other key
    with a non-empty value in map order (values cut to 70 bytes), so its rows
    are empty exactly when no key carries a non-empty value. *)
Theorem pod_details_rows (tu : Msg -> table_Model -> table_Model * cmd) (m : model)
  (details : option (list (string * string))) (err : option string) :
  exists m', Update tu m (podDetailsMsg details err) = Some (m', CmdNil) /\
    match err, details with
    | None, Some d =>
        rows (podDefTable m') = detail_projection d /\
        (rows (podDefTable m') = [] <->
         (forall k, In k orderedKeys -> lookup_value d k = "") /\
         (forall k v, In (k, v) d -> ~ In k orderedKeys -> v = ""))
    | _, _ => rows (podDefTable m') = [errorRow]
    end.
Proof.
  destruct err as [e|]; [eexists; split; reflexivity|].
  destruct details as [d|]; [|eexists; split; reflexivity].
  unfold Update, initPodDefTable, podDef_rows.
  rewrite ordered_rows_spec, remaining_rows_spec.
  eexists; split; [reflexivity|]. cbn [rows podDefTable set_podDefTable table_New].
  unfold detail_projection. split; [reflexivity|].
  rewrite app_map_nil_iff, !filter_nil_iff.
  split.
  - intros [H1 H2]. split.
    + intros k Hk. specialize (H1 k Hk). destruct (String.eqb (lookup_value d k) "") eqn:E.
      * apply String.eqb_eq; auto.
      * discriminate.
    + intros k v Hin Hk. specialize (H2 (k, v) Hin). cbn [fst snd] in H2.
      rewrite <- in_orderedKeys in Hk. apply not_true_is_false in Hk. rewrite Hk in H2.
      destruct (String.eqb v "") eqn:E; [apply String.eqb_eq; auto|discriminate].
  - intros [H1 H2]. split.
    + intros k Hk. rewrite (H1 k Hk). reflexivity.
    + intros [k v] Hin. cbn [fst snd].
      destruct (existsb (String.eqb k) orderedKeys) eqn:E; [reflexivity|].
      rewrite (H2 k v Hin); [reflexivity|].
      rewrite <- in_orderedKeys, E; discriminate.
Qed.

(** ** Case analysis on a transition *)

Lemma initPodDefTable_some (details : option (list (string * string))) (m : model) :
  exists r, podDef_rows details = Some r /\
    initPodDefTable details m = Some (set_podDefTable (table_New podDefColumns r 20) m).
Proof.
  unfold initPodDefTable, podDef_rows.
  destruct details as [d|]; [|eauto].
  rewrite ordered_rows_spec, remaining_rows_spec; eauto.
Qed.

(** Splits a hypothesis [Update tu m msg = Some (m', c)] into the paths of
    [Update], with the replaced tables abstracted. *)
Ltac step_cases H :=
  repeat match type of H with
  | context [widget_update ?tu ?m ?msg] =>
      let t := fresh "t" in let pt := fresh "pt" in let c0 := fresh "c" in
      let E := fresh "Ew" in
      destruct (widget_update_fields tu m msg) as (t & pt & c0 & E); rewrite E in H
  | context [initPodDefTable ?d ?m] =>
      let r := fresh "r" in let E := fresh "Ep" in let E' := fresh "Ep" in
      destruct (initPodDefTable_some d m) as (r & E' & E); rewrite E in H
  | context [updateTableForTab ?x] =>
      let t := fresh "t" in let E := fresh "Eu" in
      destruct (updateTableForTab_set_table x) as [t E]; rewrite E in H
  | context [if ?b then _ else _] => let E := fresh "Eb" in destruct b eqn:E
  | context [match ?o with Some _ => _ | None => _ end] =>
      let E := fresh "Eo" in destruct o eqn:E
  | context [match ?l with [] => _ | _ :: _ => _ end] =>
      let E := fresh "El" in destruct l eqn:E
  end.

Ltac clean_some :=
  repeat match goal with
  | E : Some _ = Some _ |- _ => injection E; clear E; intros; subst
  | E : (_, _) = (_, _) |- _ => injection E; clear E; intros; subst
  | E : None = Some _ |- _ => discriminate E
  | E : Some _ = None |- _ => discriminate E
  end.

Ltac unfold_step H :=
  unfold Update, handleKey in H;
  cbv beta iota zeta in H.

(** ** C8: the wizard's transient selection *)

(** Claim C8 (counterexample): closing the wizard with Esc in a state reached
    from startup keeps the chosen image identifier. *)
Lemma modal_close_keeps_image :
  exists m m', reachable idle_widget m /\ showModal m = true /\
    Update idle_widget m (KeyMsg "esc") = Some (m', CmdNil) /\
    showModal m' = false /\ selectedImage m' = "localhost:5000/app:v1".
Proof.
  destruct scenario_wizard_reachable as [m [Hr [_ [Hs [Hi _]]]]].
  exists m, (close_modal m); repeat split; auto.
  unfold Update, handleKey; simpl. rewrite Hs; reflexivity.
Qed.

(** Claim C8 (amended): whenever a transition closes the modal, it resets
    the step to SelectTarget and leaves the chosen image and the candidate
    index as they were; they are re-initialised when the modal opens: the
    candidate index to the "create new" sentinel -1 and the image to the
    selected row's tag, or its id when the tag is empty. *)
Theorem modal_close_keeps_selection (tu : Msg -> table_Model -> table_Model * cmd)
  (m : model) (msg : Msg) (m' : model) (c : cmd)
  (Hstep : Update tu m msg = Some (m', c)) :
  (showModal m = true -> showModal m' = false ->
     modalStep m' = 0 /\ selectedImage m' = selectedImage m /\
     selectedDeployment m' = selectedDeployment m) /\
  (showModal m = false -> showModal m' = true ->
     modalStep m' = 0 /\ selectedDeployment m' = -1 /\
     exists d, go_index (dockerData m) (cursor (table m)) = Some d /\
       selectedImage m' = (if String.eqb (ImageTag d) "" then ImageID d else ImageTag d)).
Proof.
  destruct msg; unfold_step Hstep; step_cases Hstep;
    clean_some; cbn in *; split; intros H1 H2; try congruence; auto.
  all: split; [reflexivity|]; split; [reflexivity|]; eexists; split; [reflexivity|];
    match goal with E : String.eqb (ImageTag _) "" = _ |- _ => rewrite E end; reflexivity.
Qed.

Lemma modal_close_keeps_selection_witness :
  Update idle_widget wizard_model (KeyMsg "esc") = Some (close_modal wizard_model, CmdNil) /\
  (modalStep (close_modal wizard_model) = 0 /\
   selectedImage (close_modal wizard_model) = selectedImage wizard_model /\
   selectedDeployment (close_modal wizard_model) = selectedDeployment wizard_model) /\
  exists m', Update idle_widget (set_showModal false wizard_model) (KeyMsg "enter") =
      Some (m', CmdLoadDeployments) /\
    modalStep m' = 0 /\ selectedDeployment m' = -1 /\
    exists d, go_index (dockerData (set_showModal false wizard_model))
                (cursor (table (set_showModal false wizard_model))) = Some d /\
      selectedImage m' = (if String.eqb (ImageTag d) "" then ImageID d else ImageTag d).
Proof.
  split; [reflexivity|]. split.
  - apply (modal_close_keeps_selection idle_widget wizard_model (KeyMsg "esc")
             (close_modal wizard_model) CmdNil); reflexivity.
  - eexists. split; [reflexivity|].
    apply (modal_close_keeps_selection idle_widget (set_showModal false wizard_model)
             (KeyMsg "enter") _ CmdLoadDeployments); reflexivity.
Defined.

(** ** C10: the wizard's candidate cursor *)

Ltac bools_to_props :=
  repeat match goal with
  | H : (_ && _) = true |- _ => apply andb_prop in H; destruct H
  | H : (_ && _) = false |- _ => apply andb_false_iff in H; destruct H
  | H : negb _ = true |- _ => apply negb_true_iff in H
  | H : negb _ = false |- _ => apply negb_false_iff in H
  | H : Z.eqb _ _ = true |- _ => apply Z.eqb_eq in H
  | H : Z.eqb _ _ = false |- _ => apply Z.eqb_neq in H
  | H : Z.ltb _ _ = true |- _ => apply Z.ltb_lt in H
  | H : Z.ltb _ _ = false |- _ => apply Z.ltb_ge in H
  | H : Z.gtb _ _ = _ |- _ => rewrite Z.gtb_ltb in H
  end.

Lemma cursor_inv_step (tu : Msg -> table_Model -> table_Model * cmd)
  (m : model) (msg : Msg) (m' : model) (c : cmd) :
  cursor_inv m -> Update tu m msg = Some (m', c) -> cursor_inv m'.
Proof.
  intros Hinv Hstep. unfold cursor_inv in *.
  destruct msg; unfold_step Hstep; step_cases Hstep;
    clean_some; cbn in *; bools_to_props; lia.
Qed.

Lemma cursor_inv_reachable (tu : Msg -> table_Model -> table_Model * cmd) (m : model) :
  reachable tu m -> cursor_inv m.
Proof.
  induction 1 as [g d k m0 H0|m msg m' c Hr IH Hstep].
  - unfold startTUI in H0. destruct (map_opt git_row g); [|discriminate].
    injection H0 as <-. unfold cursor_inv; cbn; lia.
  - eapply cursor_inv_step; eauto.
Qed.

Lemma go_index_in_bounds {A : Type} (l : list A) (i : Z) :
  0 <= i < go_len l -> exists x, go_index l i = Some x.
Proof.
  intros Hi. unfold go_index, go_len in *.
  destruct (i <? 0) eqn:E; [apply Z.ltb_lt in E; lia|].
  destruct (nth_error l (Z.to_nat i)) eqn:En; eauto.
  apply nth_error_None in En; lia.
Qed.

(** Claim C10: in every state reachable from startup (by key events or any
    completion), the candidate index is at least -1 and at least 0 in
    UpdateConfirm; an up/down key in SelectTarget moves it by one step, up to
    at most len(deployments)-1 or down to at least -1; so neither the "1"
    handler nor [renderModal] ever indexes [deployments] out of range. *)
Theorem deployment_cursor_in_bounds (tu : Msg -> table_Model -> table_Model * cmd)
  (m : model) (Hr : reachable tu m) :
  -1 <= selectedDeployment m /\
  (modalStep m = 2 -> 0 <= selectedDeployment m) /\
  (forall k m' c, showModal m = true -> modalStep m = 0 ->
     In k ["up"; "k"; "down"; "j"] -> Update tu m (KeyMsg k) = Some (m', c) ->
     selectedDeployment m' = selectedDeployment m \/
     (selectedDeployment m' = selectedDeployment m + 1 /\
      selectedDeployment m' <= go_len (deployments m) - 1) \/
     (selectedDeployment m' = selectedDeployment m - 1 /\ -1 <= selectedDeployment m')) /\
  Update tu m (KeyMsg "1") <> None /\
  renderModal m <> None.
Proof.
  destruct (cursor_inv_reachable tu m Hr) as (Hlo & Hstep & H2).
  split; [exact Hlo|]. split; [exact H2|]. split; [|split].
  - intros k m' c Hs H0 Hk Hu.
    destruct Hk as [<-|[<-|[<-|[<-|[]]]]];
      unfold Update, handleKey in Hu; simpl in Hu; rewrite Hs, H0 in Hu; simpl in Hu;
      step_cases Hu; clean_some; cbn; bools_to_props; lia.
  - unfold Update, handleKey; simpl.
    destruct (showModal m); [|destruct (updateTableForTab (set_activeTab 0 m)); discriminate].
    destruct (modalStep m =? 0) eqn:E0; [destruct (selectedDeployment m =? -1); discriminate|].
    destruct (modalStep m =? 1) eqn:E1; [discriminate|].
    bools_to_props. cbn.
    destruct ((0 <? go_len (deployments m)) && (selectedDeployment m <? go_len (deployments m)))
      eqn:Eg; [|discriminate].
    bools_to_props.
    destruct (go_index_in_bounds (deployments m) (selectedDeployment m)) as [x ->];
      [lia | discriminate].
  - unfold renderModal.
    destruct (modalStep m =? 0) eqn:E0; [discriminate|].
    destruct (modalStep m =? 1) eqn:E1; [discriminate|].
    bools_to_props.
    destruct ((0 <? go_len (deployments m)) && (selectedDeployment m <? go_len (deployments m)))
      eqn:Eg; [|discriminate].
    bools_to_props.
    destruct (go_index_in_bounds (deployments m) (selectedDeployment m)) as [x ->];
      [lia | discriminate].
Qed.

Lemma deployment_cursor_in_bounds_witness :
  reachable idle_widget wizard_model /\
  -1 <= selectedDeployment wizard_model /\
  (modalStep wizard_model = 2 -> 0 <= selectedDeployment wizard_model) /\
  (forall k m' c, showModal wizard_model = true -> modalStep wizard_model = 0 ->
     In k ["up"; "k"; "down"; "j"] -> Update idle_widget wizard_model (KeyMsg k) = Some (m', c) ->
     selectedDeployment m' = selectedDeployment wizard_model \/
     (selectedDeployment m' = selectedDeployment wizard_model + 1 /\
      selectedDeployment m' <= go_len (deployments wizard_model) - 1) \/
     (selectedDeployment m' = selectedDeployment wizard_model - 1 /\ -1 <= selectedDeployment m')) /\
  Update idle_widget wizard_model (KeyMsg "1") <> None /\
  renderModal wizard_model <> None.
Proof.
  assert (Hr : reachable idle_widget wizard_model).
  { eapply (run_reachable idle_widget [KeyMsg "2"; KeyMsg "enter"]).
    - eapply (reach_init idle_widget [] [scenario_image] []); reflexivity.
    - reflexivity. }
  split; [exact Hr|].
  apply (deployment_cursor_in_bounds idle_widget wizard_model Hr).
Defined.

(** ** C9: tab switching *)

Lemma updateTableForTab_spec (m : model) (Hc : cols (table m) <> []) :
  exists t, updateTableForTab m = set_table t m /\
    cols t = tab_columns (activeTab m) /\ tab_rows (activeTab m) m = Some (rows t).
Proof.
  unfold updateTableForTab.
  destruct (cols (table m)) eqn:Ec; [congruence|].
  destruct (tab_rows_some (activeTab m) m) as [r Er]; rewrite Er.
  eexists; split; [reflexivity|]. split; reflexivity.
Qed.

Lemma tab_columns_not_nil (t : Z) : tab_columns t <> [].
Proof.
  unfold tab_columns.
  destruct (t =? 0); [discriminate|]. destruct (t =? 1); [discriminate|].
  destruct (t =? 2); discriminate.
Qed.

Lemma tab_key_step (tu : Msg -> table_Model -> table_Model * cmd) (m : model) (k : tabKey)
  (Hmodal : showModal m = false) (Htabs : go_len (tabs m) = 3)
  (Hcols : cols (table m) <> []) :
  exists m1, Update tu m (tabKey_msg k) = Some (m1, CmdNil) /\
    activeTab m1 = tab_selected (activeTab m) k /\
    cols (table m1) = tab_columns (activeTab m1) /\
    tab_rows (activeTab m1) m = Some (rows (table m1)) /\
    showModal m1 = false /\ tabs m1 = tabs m /\
    gitData m1 = gitData m /\ dockerData m1 = dockerData m /\ kubesData m1 = kubesData m.
Proof.
  assert (Hu : Update tu m (tabKey_msg k) =
               Some (updateTableForTab (set_activeTab (tab_selected (activeTab m) k) m), CmdNil)).
  { destruct k; unfold Update, handleKey; simpl; rewrite ?Hmodal; try reflexivity.
    rewrite Htabs; reflexivity. }
  rewrite Hu.
  destruct (updateTableForTab_spec (set_activeTab (tab_selected (activeTab m) k) m) Hcols)
    as (t & Et & Ect & Ert).
  rewrite Et. eexists; split; [reflexivity|]. cbn.
  repeat split; auto.
Qed.

(** Claim C9: from a state with no modal open (three tabs, table set up, as
    after startup), any non-empty sequence of tab-select events returns no
    command, leaves the tab selected by the last event active (keys 1-3 select
    tabs 0-2, Tab moves to the next one), shows that tab's fixed column schema
    and the rows projected from the cached data, which is left unchanged. *)
Theorem tab_switch_sequence (tu : Msg -> table_Model -> table_Model * cmd)
  (m : model) (ks : list tabKey)
  (Hmodal : showModal m = false) (Htabs : go_len (tabs m) = 3)
  (Hcols : cols (table m) <> []) (Hks : ks <> []) :
  exists m', run tu m (map tabKey_msg ks) = Some (m', repeat CmdNil (length ks)) /\
    activeTab m' = fold_left tab_selected ks (activeTab m) /\
    cols (table m') = tab_columns (activeTab m') /\
    tab_rows (activeTab m') m = Some (rows (table m')) /\
    showModal m' = false /\
    gitData m' = gitData m /\ dockerData m' = dockerData m /\ kubesData m' = kubesData m.
Proof.
  revert m Hmodal Htabs Hcols.
  induction ks as [|k ks IH]; intros m Hmodal Htabs Hcols; [congruence|].
  destruct (tab_key_step tu m k Hmodal Htabs Hcols)
    as (m1 & Hu & Ha & Hc & Hrw & Hs & Ht & Hg & Hd & Hk).
  destruct ks as [|k' ks'].
  - exists m1. cbn [map run]. rewrite Hu. repeat split; auto.
  - assert (Hc1 : cols (table m1) <> []) by (rewrite Hc; apply tab_columns_not_nil).
    destruct (IH ltac:(discriminate) m1 Hs ltac:(rewrite Ht; exact Htabs) Hc1)
      as (m2 & Hr & Ha2 & Hc2 & Hr2 & Hs2 & Hg2 & Hd2 & Hk2).
    exists m2. split.
    + change (map tabKey_msg (k :: k' :: ks')) with (tabKey_msg k :: map tabKey_msg (k' :: ks')).
      cbn [run]. rewrite Hu. rewrite Hr. reflexivity.
    + split; [rewrite Ha2, Ha; reflexivity|]. split; [exact Hc2|].
      split; [|repeat split; congruence].
      rewrite <- Hr2. unfold tab_rows. rewrite Hg, Hd, Hk. reflexivity.
Qed.

Lemma tab_switch_sequence_witness :
  exists m', run idle_widget startup_model (map tabKey_msg [KeyTab; Key3]) =
               Some (m', repeat CmdNil 2) /\
    activeTab m' = fold_left tab_selected [KeyTab; Key3] (activeTab startup_model) /\
    cols (table m') = tab_columns (activeTab m') /\
    tab_rows (activeTab m') startup_model = Some (rows (table m')) /\
    showModal m' = false /\
    gitData m' = gitData startup_model /\ dockerData m' = dockerData startup_model /\
    kubesData m' = kubesData startup_model.
Proof.
  apply (tab_switch_sequence idle_widget startup_model [KeyTab; Key3]);
    [reflexivity | reflexivity | discriminate | discriminate].
Defined.

(** ** C2: the create-new wizard scenario *)

(** Claim C2 (counterexample): in the scenario, the name the CreateConfirm
    step shows and [createNewDeployment] passes on is not "app-v1". *)
Lemma wizard_create_name_not_app_v1 :
  exists m2 m3,
    run idle_widget startup_model
      [KeyMsg "2"; KeyMsg "enter"; deploymentsMsg []; KeyMsg "1"] =
      Some (m2, [CmdNil; CmdLoadDeployments; CmdNil; CmdNil]) /\
    renderModal m2 <> Some (CreateConfirmView "localhost:5000/app:v1" "app-v1") /\
    Update idle_widget m2 (KeyMsg "1") = Some (m3, CmdCreateNewDeployment "localhost:5000/app:v1") /\
    createNewDeployment_call "localhost:5000/app:v1" <>
      ("localhost:5000/app:v1", "app-v1", "default").
Proof.
  exists (set_modalStep 1 (set_deployments [] wizard_model)),
    (close_modal (set_modalStep 1 (set_deployments [] wizard_model))).
  split; [vm_compute; reflexivity|].
  split; [vm_compute; discriminate|].
  split; [vm_compute; reflexivity|].
  vm_compute; discriminate.
Qed.

(** Claim C2 (amended): starting from the image row
    {id "abc123", tag "localhost:5000/app:v1"} on the Docker tab, Enter opens
    the wizard and requests the deployment list; when it comes back empty the
    SelectTarget step lists only the highlighted "create new" entry, with the
    candidate index -1; "1" goes to CreateConfirm showing the generated name
    "localhost-5000-app-v1" (the whole reference lower-cased, ':' '/' '_' '.'
    replaced by '-', trimmed of '-', "new-deployment" when empty or "latest",
    "app-" prefixed when not starting with a lowercase letter); "1" again
    closes the wizard and dispatches
    CreateWorkload("localhost:5000/app:v1", "localhost-5000-app-v1", "default"). *)
Theorem wizard_create_scenario (tu : Msg -> table_Model -> table_Model * cmd) :
  startTUI [] [scenario_image] [] = Some startup_model /\
  exists m1 m2 m3,
    run tu startup_model [KeyMsg "2"; KeyMsg "enter"; deploymentsMsg []] =
      Some (m1, [CmdNil; CmdLoadDeployments; CmdNil]) /\
    showModal m1 = true /\ selectedDeployment m1 = -1 /\
    renderModal m1 = Some (SelectTargetView [("[Create New Deployment]", true)]) /\
    Update tu m1 (KeyMsg "1") = Some (m2, CmdNil) /\ showModal m2 = true /\
    renderModal m2 = Some (CreateConfirmView "localhost:5000/app:v1" "localhost-5000-app-v1") /\
    Update tu m2 (KeyMsg "1") = Some (m3, CmdCreateNewDeployment "localhost:5000/app:v1") /\
    showModal m3 = false /\
    createNewDeployment_call "localhost:5000/app:v1" =
      ("localhost:5000/app:v1", "localhost-5000-app-v1", "default").
Proof.
  split; [reflexivity|].
  exists (set_deployments [] wizard_model),
    (set_modalStep 1 (set_deployments [] wizard_model)),
    (close_modal (set_modalStep 1 (set_deployments [] wizard_model))).
  repeat split; vm_compute; reflexivity.
Qed.

(** ** Further properties of the controller and its helpers *)

Lemma prefix_substring0 (n : nat) (s : string) : String.prefix (substring 0 n s) s = true.
Proof.
  revert n; induction s as [|c s IH]; intros [|n]; simpl; auto.
  destruct (ascii_dec c c); [apply IH|congruence].
Qed.

Lemma length_substring0_min (n : nat) (s : string) :
  String.length (substring 0 n s) = Nat.min n (String.length s).
Proof. revert n; induction s as [|c s IH]; intros [|n]; simpl; auto. Qed.

Lemma truncateString_len (s t : string) (w : Z) :
  truncateString s w = Some t -> str_len t <= w.
Proof.
  unfold truncateString, str_len. intros H.
  destruct (Z.of_nat (String.length s) <=? w) eqn:E1.
  - injection H as <-. apply Z.leb_le in E1; lia.
  - destruct (w - 3 <? 0) eqn:E2; [discriminate|].
    injection H as <-. apply Z.leb_gt in E1. apply Z.ltb_ge in E2.
    rewrite length_append, length_substring0_min. simpl. lia.
Qed.

Lemma prefix_app (p s : string) : String.prefix p (p ++ s) = true.
Proof. induction p as [|c p IH]; simpl; [destruct s; auto|]. destruct (ascii_dec c c); [auto|congruence]. Qed.

Lemma substring_app_l (p s : string) (k : nat) :
  substring (String.length p) k (p ++ s) = substring 0 k s.
Proof. induction p as [|c p IH]; simpl; auto. Qed.

Lemma substring0_full (s : string) : substring 0 (String.length s) s = s.
Proof. induction s as [|c s IH]; simpl; auto; rewrite IH; auto. Qed.

Lemma substring0_app (a b : string) : substring 0 (String.length a) (a ++ b) = a.
Proof. induction a as [|c a IH]; simpl; [destruct b; auto|]. rewrite IH; auto. Qed.

Lemma append_assoc' (a b c : string) : (a ++ b) ++ c = a ++ b ++ c.
Proof. induction a as [|x a IH]; simpl; congruence. Qed.

Lemma last_index_from_app (a b : string) (c : ascii) (i acc : Z) :
  last_index_from (a ++ b) c i acc =
  last_index_from b c (i + str_len a) (last_index_from a c i acc).
Proof.
  unfold str_len; revert i acc; induction a as [|x a IH]; intros i acc; simpl.
  - rewrite Z.add_0_r; auto.
  - rewrite IH. f_equal. lia.
Qed.

Lemma last_index_from_none (s : string) (c : ascii) (i acc : Z) :
  has_byte s c = false -> last_index_from s c i acc = acc.
Proof.
  revert i acc; induction s as [|x s IH]; intros i acc H; simpl in *; auto.
  apply orb_false_iff in H as [H1 H2]. rewrite H1. auto.
Qed.

Lemma LastIndexByte_split (r t : string) (c : ascii) :
  has_byte t c = false -> LastIndexByte (r ++ String c t) c = str_len r.
Proof.
  intros H. unfold LastIndexByte. rewrite last_index_from_app. simpl.
  rewrite Ascii.eqb_refl, last_index_from_none; auto.
Qed.

Ltac finish_tag_split r t Hr Ht :=
  change (r ++ ":" ++ t) with (r ++ String ":" t);
  rewrite LastIndexByte_split by exact Ht;
  assert (Hpos : (str_len r >? 0) = true)
    by (rewrite Z.gtb_ltb; apply Z.ltb_lt; unfold str_len; destruct r; [congruence|simpl; lia]);
  rewrite Hpos; unfold str_len; rewrite Nat2Z.id, substring0_app; f_equal;
  change (r ++ String ":" t) with (r ++ ":" ++ t);
  rewrite <- append_assoc';
  replace (Z.to_nat (Z.of_nat (String.length r) + 1)) with (String.length (r ++ ":"))
    by (rewrite length_append; simpl; lia);
  rewrite substring_app_l;
  replace (Z.to_nat _) with (String.length t);
    [apply substring0_full | rewrite !length_append; simpl; lia].

Lemma docker_repository_tag_split (r t : string) :
  r <> "" -> has_byte t ":" = false ->
  HasPrefix (r ++ ":" ++ t) "localhost:5000/" = false -> r ++ ":" ++ t <> "N/A" ->
  docker_repository_tag (r ++ ":" ++ t) = (r, t).
Proof.
  intros Hr Ht Hp Hna. unfold docker_repository_tag. rewrite Hp.
  assert (Hl : (0 <? str_len (r ++ ":" ++ t)) = true).
  { apply Z.ltb_lt. unfold str_len. rewrite length_append. simpl. lia. }
  rewrite Hl. destruct (String.eqb_spec (r ++ ":" ++ t) "N/A") as [E|_]; [congruence|].
  cbv zeta iota beta. cbn [negb andb].
  finish_tag_split r t Hr Ht.
Qed.

Lemma has_byte_app (a b : string) (c : ascii) :
  has_byte (a ++ b) c = has_byte a c || has_byte b c.
Proof. induction a as [|x a IH]; simpl; auto. rewrite IH, orb_assoc; auto. Qed.

Lemma prefix_app_inv (p s : string) : String.prefix p s = true -> exists rest, s = p ++ rest.
Proof.
  revert s; induction p as [|c p IH]; intros s H; simpl in *; [eauto|].
  destruct s as [|d s]; [discriminate|].
  simpl in H. destruct (ascii_dec c d) as [E|E]; [subst d|discriminate].
  destruct (IH s H) as [rest Er]; exists rest; rewrite Er; reflexivity.
Qed.

Lemma has_byte_no_registry_prefix (s : string) :
  has_byte s ":" = false -> HasPrefix s "localhost:5000/" = false.
Proof.
  intros H. unfold HasPrefix. destruct (String.prefix "localhost:5000/" s) eqn:E; auto.
  destruct (prefix_app_inv _ _ E) as [rest Er]. rewrite Er, has_byte_app in H. discriminate.
Qed.

Lemma TrimPrefix_app (p s : string) : TrimPrefix (p ++ s) p = s.
Proof.
  unfold TrimPrefix, HasPrefix. rewrite prefix_app. rewrite length_append.
  replace (String.length p + String.length s - String.length p)%nat with (String.length s) by lia.
  rewrite substring_app_l. apply substring0_full.
Qed.

Lemma docker_repository_tag_nocolon (s : string) :
  s <> "" -> has_byte s ":" = false -> HasPrefix s "localhost:5000/" = false ->
  s <> "N/A" -> docker_repository_tag s = (s, "latest").
Proof.
  intros Hs Hc Hp Hna. unfold docker_repository_tag. rewrite Hp.
  assert (Hl : (0 <? str_len s) = true).
  { apply Z.ltb_lt. unfold str_len. destruct s; [congruence|simpl; lia]. }
  rewrite Hl. destruct (String.eqb_spec s "N/A") as [E|_]; [congruence|].
  cbv zeta iota beta. cbn [negb andb].
  unfold LastIndexByte. rewrite last_index_from_none by exact Hc. reflexivity.
Qed.

Lemma docker_repository_tag_registry_split (r t : string) :
  r <> "" -> has_byte t ":" = false ->
  docker_repository_tag ("localhost:5000/" ++ r ++ ":" ++ t) = (r, t).
Proof.
  intros Hr Ht. unfold docker_repository_tag.
  assert (Hp : HasPrefix ("localhost:5000/" ++ r ++ ":" ++ t) "localhost:5000/" = true)
    by apply prefix_app.
  rewrite Hp, TrimPrefix_app. cbv zeta iota beta.
  assert (Hl : (0 <? str_len ("localhost:5000/" ++ r ++ ":" ++ t)) = true).
  { apply Z.ltb_lt. unfold str_len. rewrite length_append. simpl. lia. }
  rewrite Hl. destruct (String.eqb_spec ("localhost:5000/" ++ r ++ ":" ++ t) "N/A") as [E|_];
    [discriminate|].
  cbn [negb andb].
  finish_tag_split r t Hr Ht.
Qed.

Lemma docker_repository_tag_registry_nocolon (r : string) :
  has_byte r ":" = false ->
  docker_repository_tag ("localhost:5000/" ++ r) = (r, "latest").
Proof.
  intros Hc. unfold docker_repository_tag.
  assert (Hp : HasPrefix ("localhost:5000/" ++ r) "localhost:5000/" = true)
    by apply prefix_app.
  rewrite Hp, TrimPrefix_app. cbv zeta iota beta.
  assert (Hl : (0 <? str_len ("localhost:5000/" ++ r)) = true).
  { apply Z.ltb_lt. unfold str_len. rewrite length_append. simpl. lia. }
  rewrite Hl. destruct (String.eqb_spec ("localhost:5000/" ++ r) "N/A") as [E|_];
    [discriminate|].
  cbn [negb andb].
  unfold LastIndexByte. rewrite last_index_from_none by exact Hc. reflexivity.
Qed.

Lemma map_opt_Forall {A B : Type} (f : A -> option B) (P : B -> Prop) (l : list A) (ys : list B) :
  (forall x y, f x = Some y -> P y) -> map_opt f l = Some ys -> Forall P ys.
Proof.
  intros Hf; revert ys; induction l as [|x l IH]; intros ys H; simpl in H.
  - injection H as <-; constructor.
  - destruct (f x) as [y|] eqn:E1; [|discriminate].
    destruct (map_opt f l) as [ys'|] eqn:E2; [|discriminate].
    injection H as <-. constructor; eauto.
Qed.

Lemma git_row_length (x : TableData) (r : Row) : git_row x = Some r -> length r = 4%nat.
Proof. unfold git_row. destruct (truncateString _ _); intros H; [injection H as <-|]; easy. Qed.

Lemma docker_row_length (x : TableData) (r : Row) : docker_row x = Some r -> length r = 5%nat.
Proof.
  unfold docker_row. destruct (docker_repository_tag _).
  destruct (truncateString _ _); [|discriminate]. destruct (truncateString _ _); [|discriminate].
  destruct (truncateString _ _); [|discriminate]. destruct (truncateString _ _); [|discriminate].
  destruct (truncateString _ _); [|discriminate]. intros H; injection H as <-; reflexivity.
Qed.

Lemma kubes_row_length (x : TableData) (r : Row) : kubes_row x = Some r -> length r = 6%nat.
Proof.
  unfold kubes_row.
  destruct (truncateString _ _); [|discriminate]. destruct (truncateString _ _); [|discriminate].
  intros H; injection H as <-; reflexivity.
Qed.

Lemma tab_rows_arity (t : Z) (m : model) (rs : list Row) :
  tab_rows t m = Some rs -> Forall (fun r => length r = length (tab_columns t)) rs.
Proof.
  unfold tab_rows, tab_columns.
  destruct (t =? 0).
  - destruct (gitData m); intros H.
    + injection H as <-. repeat constructor.
    + eapply map_opt_Forall; [|exact H]. intros x y Hy; rewrite (git_row_length x y Hy); reflexivity.
  - destruct (t =? 1); [|destruct (t =? 2)]; intros H; (eapply map_opt_Forall; [|exact H]);
      intros x y Hy.
    + rewrite (docker_row_length x y Hy); reflexivity.
    + rewrite (kubes_row_length x y Hy); reflexivity.
    + rewrite (git_row_length x y Hy); reflexivity.
Qed.

(** Every row the table shows after [updateTableForTab] has as many cells as the table has columns, whichever tab is active. *)
Theorem updateTableForTab_row_arity (m : model) (Hc : cols (table m) <> []) :
  Forall (fun r => length r = length (cols (table (updateTableForTab m))))
    (rows (table (updateTableForTab m))).
Proof.
  destruct (updateTableForTab_spec m Hc) as (t & Et & Ec & Er).
  rewrite Et. cbn [table set_table]. rewrite Ec. apply tab_rows_arity with (m := m); exact Er.
Qed.

(** Every cell of a Docker row fits the width of its column, and the truncated cells of the Kubernetes and Git rows fit theirs (35, 20 and 40 bytes). *)
Theorem row_cells_fit (item : TableData) :
  (exists r, docker_row item = Some r /\
     Forall2 (fun cell col => str_len cell <= Width col) r dockerColumns) /\
  (exists r, kubes_row item = Some r /\
     str_len (nth 0 r "") <= 35 /\ str_len (nth 5 r "") <= 20) /\
  (exists r, git_row item = Some r /\ str_len (nth 1 r "") <= 40).
Proof.
  split; [|split].
  - unfold docker_row. destruct (docker_repository_tag (ImageTag item)) as [rp tg].
    destruct (truncateString_some (ImageID item) 20 ltac:(lia)) as [a Ea]; rewrite Ea.
    destruct (truncateString_some rp 30 ltac:(lia)) as [b Eb]; rewrite Eb.
    destruct (truncateString_some tg 15 ltac:(lia)) as [c Ec]; rewrite Ec.
    destruct (truncateString_some (ImageSize item) 12 ltac:(lia)) as [d Ed]; rewrite Ed.
    destruct (truncateString_some (CreatedAt item) 25 ltac:(lia)) as [e Ee]; rewrite Ee.
    eexists; split; [reflexivity|].
    repeat constructor; cbn [Width]; eapply truncateString_len; eassumption.
  - unfold kubes_row.
    destruct (truncateString_some (PodName item) 35 ltac:(lia)) as [a Ea]; rewrite Ea.
    destruct (truncateString_some (NodeName item) 20 ltac:(lia)) as [f Ef]; rewrite Ef.
    eexists; split; [reflexivity|]. cbn [nth].
    split; eapply truncateString_len; eassumption.
  - unfold git_row.
    destruct (truncateString_some (PRDescription item) 40 ltac:(lia)) as [d Ed]; rewrite Ed.
    eexists; split; [reflexivity|]. cbn [nth]. eapply truncateString_len; eassumption.
Qed.

Lemma zero_bytes_length (n : nat) : String.length (zero_bytes n) = n.
Proof. induction n; simpl; auto. Qed.

(** TrimText keeps a prefix of at most 45 bytes, PadText extends a string to at least 45 bytes, and either composition gives exactly 45 bytes. *)
Theorem text_helpers_fixed_width (s : string) :
  String.prefix (TrimText s) s = true /\ str_len (TrimText s) = Z.min (str_len s) 45 /\
  String.prefix s (PadText s) = true /\ str_len (PadText s) = Z.max (str_len s) 45 /\
  str_len (TrimText (PadText s)) = 45 /\ str_len (PadText (TrimText s)) = 45.
Proof.
  assert (HT : forall u, String.prefix (TrimText u) u = true /\
                         str_len (TrimText u) = Z.min (str_len u) 45).
  { intros u. unfold TrimText, maxLength. destruct (45 <? str_len u) eqn:E.
    - apply Z.ltb_lt in E. split; [apply prefix_substring0|].
      unfold str_len in *. rewrite length_substring0_min. lia.
    - apply Z.ltb_ge in E. split; [|lia].
      destruct u as [|c u]; simpl; auto. destruct (ascii_dec c c); [|congruence].
      clear. induction u as [|c' u IH]; simpl; auto. destruct (ascii_dec c' c'); [auto|congruence]. }
  assert (HP : forall u, String.prefix u (PadText u) = true /\
                         str_len (PadText u) = Z.max (str_len u) 45).
  { intros u. unfold PadText, targetLength. destruct (45 <=? str_len u) eqn:E.
    - apply Z.leb_le in E. split; [|lia].
      destruct u as [|c u]; simpl; auto. destruct (ascii_dec c c); [|congruence].
      clear. induction u as [|c' u IH]; simpl; auto. destruct (ascii_dec c' c'); [auto|congruence].
    - apply Z.leb_gt in E. split; [apply prefix_app|].
      unfold str_len in *. rewrite length_append, zero_bytes_length. lia. }
  destruct (HT s) as [HT1 HT2]. destruct (HP s) as [HP1 HP2].
  destruct (HT (PadText s)) as [_ HT3]. destruct (HP (TrimText s)) as [_ HP3].
  repeat split; auto; lia.
Qed.

Lemma append_nil_r (s : string) : s ++ "" = s.
Proof. induction s as [|c s IH]; simpl; congruence. Qed.

Lemma rev_string_app (a b : string) : rev_string (a ++ b) = rev_string b ++ rev_string a.
Proof.
  induction a as [|c a IH]; simpl.
  - rewrite append_nil_r; reflexivity.
  - rewrite IH, append_assoc'. reflexivity.
Qed.

Lemma rev_string_involutive (s : string) : rev_string (rev_string s) = s.
Proof. induction s as [|c s IH]; simpl; auto. rewrite rev_string_app, IH; reflexivity. Qed.

Lemma in_rev_string (s : string) (x : ascii) :
  In x (list_ascii_of_string (rev_string s)) <-> In x (list_ascii_of_string s).
Proof.
  assert (Happ : forall a b, list_ascii_of_string (a ++ b) =
                             app (list_ascii_of_string a) (list_ascii_of_string b)).
  { induction a as [|c a IH]; intros b; simpl; congruence. }
  induction s as [|c s IH]; simpl; [tauto|].
  rewrite Happ, in_app_iff, IH. simpl. tauto.
Qed.

Lemma in_TrimLeftByte (s : string) (c x : ascii) :
  In x (list_ascii_of_string (TrimLeftByte s c)) -> In x (list_ascii_of_string s).
Proof. induction s as [|a s IH]; simpl; auto. destruct (Ascii.eqb a c); simpl; auto. Qed.

Lemma in_TrimByte (s : string) (c x : ascii) :
  In x (list_ascii_of_string (TrimByte s c)) -> In x (list_ascii_of_string s).
Proof.
  unfold TrimByte. intros H.
  apply in_rev_string, in_TrimLeftByte, in_rev_string, in_TrimLeftByte in H. exact H.
Qed.

Lemma TrimLeftByte_head (s : string) (c a : ascii) (r : string) :
  TrimLeftByte s c = String a r -> a <> c.
Proof.
  induction s as [|b s IH]; simpl; [discriminate|].
  destruct (Ascii.eqb_spec b c); auto. intros H; injection H as <- <-; auto.
Qed.

Lemma TrimByte_last (s init : string) (c : ascii) : TrimByte s c <> init ++ String c "".
Proof.
  unfold TrimByte. intros H.
  apply (f_equal rev_string) in H. rewrite rev_string_involutive, rev_string_app in H.
  simpl in H. apply TrimLeftByte_head in H. congruence.
Qed.

Lemma in_ToLower (s : string) (x : ascii) :
  In x (list_ascii_of_string (ToLower s)) -> exists y, x = ascii_lower y.
Proof. induction s as [|a s IH]; simpl; [tauto|]. intros [<-|H]; eauto. Qed.

Lemma ascii_lower_not_upper (y : ascii) : ~ (65 <= nat_of_ascii (ascii_lower y) <= 90)%nat.
Proof.
  unfold ascii_lower.
  destruct ((65 <=? nat_of_ascii y)%nat && (nat_of_ascii y <=? 90)%nat) eqn:E.
  - apply andb_prop in E as [E1 E2]. apply Nat.leb_le in E1, E2.
    rewrite nat_ascii_embedding by lia. lia.
  - apply andb_false_iff in E as [E|E]; apply Nat.leb_gt in E; lia.
Qed.

Lemma in_ReplaceAllByte (s : string) (old new x : ascii) :
  In x (list_ascii_of_string (ReplaceAllByte s old new)) ->
  x = new \/ (x <> old /\ In x (list_ascii_of_string s)).
Proof.
  induction s as [|a s IH]; simpl; [tauto|].
  intros [H|H].
  - destruct (Ascii.eqb_spec a old); subst; auto.
  - destruct (IH H) as [|[]]; auto.
Qed.

Lemma app_last_inv (a b init : string) (c : ascii) :
  a ++ b = init ++ String c "" -> b <> "" -> exists init', b = init' ++ String c "".
Proof.
  revert init; induction a as [|x a IH]; intros init H Hb; simpl in H; [eauto|].
  destruct init as [|y init]; simpl in H.
  - injection H as _ H. destruct a; simpl in H; [congruence|discriminate].
  - injection H as _ H. eauto.
Qed.

(** A generated deployment name starts with a lowercase letter, never ends in '-', and holds no uppercase letter and none of ':' '/' '_' '.'. *)
Theorem deploymentNameFor_wellformed (img : string) :
  (exists c rest, deploymentNameFor img = String c rest /\ (97 <= nat_of_ascii c <= 122)%nat) /\
  (forall init, deploymentNameFor img <> init ++ "-") /\
  (forall x, In x (list_ascii_of_string (deploymentNameFor img)) ->
     ~ (65 <= nat_of_ascii x <= 90)%nat /\ ~ In x [":"; "/"; "_"; "."]%char).
Proof.
  unfold deploymentNameFor.
  set (t := TrimByte _ "-").
  assert (Ht : forall x, In x (list_ascii_of_string t) ->
             ~ (65 <= nat_of_ascii x <= 90)%nat /\ ~ In x [":"; "/"; "_"; "."]%char).
  { intros x Hx. apply in_TrimByte in Hx.
    apply in_ReplaceAllByte in Hx as [->|[H4 Hx]]; [split; [cbn; lia|cbn; intuition discriminate]|].
    apply in_ReplaceAllByte in Hx as [->|[H3 Hx]]; [split; [cbn; lia|cbn; intuition discriminate]|].
    apply in_ReplaceAllByte in Hx as [->|[H2 Hx]]; [split; [cbn; lia|cbn; intuition discriminate]|].
    apply in_ReplaceAllByte in Hx as [->|[H1 Hx]]; [split; [cbn; lia|cbn; intuition discriminate]|].
    apply in_ToLower in Hx as [y ->]. split; [apply ascii_lower_not_upper|].
    cbn. intuition congruence. }
  assert (Hte : forall init, t <> init ++ "-") by (intros init; apply TrimByte_last).
  set (n1 := if String.eqb t "" || String.eqb t "latest" then "new-deployment" else t).
  assert (Hn1 : n1 <> "" /\ (forall init, n1 <> init ++ "-") /\
     (forall x, In x (list_ascii_of_string n1) ->
        ~ (65 <= nat_of_ascii x <= 90)%nat /\ ~ In x [":"; "/"; "_"; "."]%char)).
  { unfold n1. destruct (String.eqb t "" || String.eqb t "latest") eqn:E.
    - split; [discriminate|]. split.
      + intros init H. apply (f_equal rev_string) in H. rewrite rev_string_app in H.
        simpl in H. discriminate.
      + intros x Hx. simpl in Hx.
        repeat (destruct Hx as [<-|Hx]; [split; [cbn; lia|cbn; intuition discriminate]|]).
        contradiction.
    - apply orb_false_iff in E as [E _]. apply String.eqb_neq in E. auto. }
  clearbody n1. destruct Hn1 as (Hne & Hend & Hbytes).
  destruct n1 as [|c rest]; [congruence|].
  destruct ((nat_of_ascii c <? 97)%nat || (122 <? nat_of_ascii c)%nat) eqn:Ec.
  - split; [exists "a"%char; eexists; split; [reflexivity|cbn; lia]|]. split.
    + intros init H. apply app_last_inv in H as [init' H]; [|discriminate].
      exact (Hend init' H).
    + intros x Hx. simpl in Hx. destruct Hx as [<-|[<-|[<-|[<-|Hx]]]];
        try (split; [cbn; lia|cbn; intuition discriminate]).
      apply Hbytes. exact Hx.
  - apply orb_false_iff in Ec as [E1 E2]. apply Nat.ltb_ge in E1, E2.
    split; [exists c, rest; split; [reflexivity|lia]|]. split; auto.
Qed.

Lemma split_byte_aux_nosep (s cur : string) (c : ascii) :
  has_byte s c = false -> split_byte_aux s c cur = [cur ++ s].
Proof.
  revert cur; induction s as [|a s IH]; intros cur H; simpl in *.
  - rewrite append_nil_r; reflexivity.
  - apply orb_false_iff in H as [H1 H2]. rewrite H1, IH by exact H2.
    rewrite append_assoc'; reflexivity.
Qed.

Lemma split_byte_aux_sep (s t cur : string) (c : ascii) :
  has_byte s c = false ->
  split_byte_aux (s ++ String c t) c cur = (cur ++ s) :: split_byte_aux t c "".
Proof.
  revert cur; induction s as [|a s IH]; intros cur H; simpl in *.
  - rewrite Ascii.eqb_refl, append_nil_r; reflexivity.
  - apply orb_false_iff in H as [H1 H2]. rewrite H1, IH by exact H2.
    rewrite append_assoc'; reflexivity.
Qed.

Lemma SplitByte_concat (ls : list string) (c : ascii) :
  ls <> [] -> Forall (fun l => has_byte l c = false) ls ->
  SplitByte (String.concat (String c "") ls) c = ls.
Proof.
  unfold SplitByte. intros Hne Hall.
  induction ls as [|l ls IH]; [congruence|].
  inversion Hall as [|? ? Hl Hls]; subst.
  destruct ls as [|l' ls'].
  - simpl. rewrite split_byte_aux_nosep by exact Hl. reflexivity.
  - change (String.concat (String c "") (l :: l' :: ls'))
      with (l ++ String c "" ++ String.concat (String c "") (l' :: ls')).
    change (String c "" ++ ?x) with (String c x).
    rewrite split_byte_aux_sep by exact Hl. rewrite IH by (discriminate || exact Hls).
    reflexivity.
Qed.

Lemma docker_line_split (f : string * string * string * string) :
  (let '(a, b, c, d) := f in
   has_byte a "," = false /\ has_byte b "," = false /\ has_byte c "," = false /\
   has_byte d "," = false) ->
  SplitByte (docker_line f) "," = (let '(a, b, c, d) := f in [a; b; c; d]).
Proof.
  destruct f as [[[a b] c] d]. intros (Ha & Hb & Hc & Hd). unfold docker_line, SplitByte.
  change (a ++ "," ++ b ++ "," ++ c ++ "," ++ d)
    with (a ++ String "," (b ++ String "," (c ++ String "," d))).
  rewrite split_byte_aux_sep by exact Ha. rewrite split_byte_aux_sep by exact Hb.
  rewrite split_byte_aux_sep by exact Hc. rewrite split_byte_aux_nosep by exact Hd.
  reflexivity.
Qed.

Lemma find_existsb_false {A : Type} (f : A -> bool) (l : list A) :
  existsb f l = false -> find f l = None.
Proof.
  induction l as [|x l IH]; simpl; auto.
  intros H. apply orb_false_iff in H as [H1 H2]. rewrite H1. auto.
Qed.

Lemma trim_leading_none (ps : list string) (fuel : nat) (s : string) :
  existsb (fun p => String.prefix p s) ps = false -> trim_leading ps fuel s = s.
Proof.
  intros H. destruct fuel; simpl; auto. rewrite find_existsb_false by exact H. reflexivity.
Qed.

Lemma TrimSpace_id (s : string) :
  starts_with_space s = false -> ends_with_space s = false -> TrimSpace s = s.
Proof.
  intros H1 H2. unfold TrimSpace, TrimRightSpace, TrimLeftSpace.
  rewrite (trim_leading_none _ _ s H1).
  rewrite (trim_leading_none _ _ (rev_string s) H2). apply rev_string_involutive.
Qed.






Lemma clean_field_spec (s : string) :
  clean_field s = true -> has_byte s "," = false /\ has_byte s "010" = false.
Proof.
  unfold clean_field. intros H. apply andb_prop in H as [H1 H2].
  apply negb_true_iff in H1, H2. auto.
Qed.

Lemma clean_quad (f : string * string * string * string) :
  (let '(a, b, c, d) := f in
   clean_field a && clean_field b && clean_field c && clean_field d = true) ->
  has_byte (docker_line f) "010" = false /\
  SplitByte (docker_line f) "," = (let '(a, b, c, d) := f in [a; b; c; d]).
Proof.
  destruct f as [[[a b] c] d]. intros H.
  apply andb_prop in H as [H Hd]. apply andb_prop in H as [H Hc]. apply andb_prop in H as [Ha Hb].
  apply clean_field_spec in Ha as [Ha1 Ha2], Hb as [Hb1 Hb2], Hc as [Hc1 Hc2], Hd as [Hd1 Hd2].
  split.
  - unfold docker_line. rewrite !has_byte_app, Ha2, Hb2, Hc2, Hd2. reflexivity.
  - apply docker_line_split. auto.
Qed.

(** Parsing the listing of well-formed lines (fields without commas or newlines, the output neither starting nor ending with a white-space rune) gives back the images the lines describe, in order. *)
Theorem getLocalDockerImages_roundtrip (fs : list (string * string * string * string))
  (Hne : fs <> [])
  (Hclean : Forall (fun f => let '(a, b, c, d) := f in
                     clean_field a && clean_field b && clean_field c && clean_field d = true) fs)
  (Hfirst : starts_with_space (String.concat (String "010" "") (map docker_line fs)) = false)
  (Hlast : ends_with_space (String.concat (String "010" "") (map docker_line fs)) = false) :
  getLocalDockerImages_output (String.concat (String "010" "") (map docker_line fs)) =
  map docker_image_of fs.
Proof.
  unfold getLocalDockerImages_output.
  destruct fs as [|f0 fs']; [congruence|].
  set (out := String.concat _ _) in *.
  assert (Hlen : (String.length out =? 0)%nat = false).
  { apply Nat.eqb_neq. unfold out. intros Hl.
    assert (Hp : exists rest, String.concat (String "010" "") (map docker_line (f0 :: fs'))
                              = docker_line f0 ++ rest).
    { destruct fs'; simpl; [exists ""; symmetry; apply append_nil_r|eauto]. }
    destruct Hp as [rest Hp]. rewrite Hp, length_append in Hl.
    destruct f0 as [[[a b] c] d]. unfold docker_line in Hl.
    rewrite !length_append in Hl. simpl in Hl. lia. }
  rewrite Hlen. rewrite TrimSpace_id by assumption. unfold out.
  rewrite SplitByte_concat.
  2: { discriminate. }
  2: { apply Forall_map. eapply Forall_impl; [|exact Hclean].
       intros f H. apply (clean_quad f H). }
  clear Hne Hfirst Hlast Hlen out.
  assert (Hfm : flat_map (fun line => match image_of_parts (SplitByte line ",") with
                                      | Some i => [i] | None => [] end)
                  (map docker_line (f0 :: fs')) = map docker_image_of (f0 :: fs')).
  { induction (f0 :: fs') as [|f l IH]; [reflexivity|].
    inversion Hclean as [|? ? Hf Hl]; subst.
    cbn [map flat_map]. rewrite (proj2 (clean_quad f Hf)), IH by exact Hl.
    destruct f as [[[a b] c] d]. reflexivity. }
  cbn [map]. cbn [map] in Hfm. rewrite Hfm. reflexivity.
Qed.

Lemma getLocalDockerImages_roundtrip_witness :
  getLocalDockerImages_output
    (String.concat (String "010" "")
       (map docker_line [("abc123", "localhost:5000/app:v1", "12MB", "2 hours ago");
                         ("def456", "<none>:<none>", "3MB", "3 days ago")])) =
  [Docker.mkDockerImage "abc123" ["localhost:5000/app:v1"] "12MB" "2 hours ago";
   Docker.mkDockerImage "def456" ["<none>:<none>"] "3MB" "3 days ago"].
Proof.
  apply (getLocalDockerImages_roundtrip
           [("abc123", "localhost:5000/app:v1", "12MB", "2 hours ago");
            ("def456", "<none>:<none>", "3MB", "3 days ago")]).
  - discriminate.
  - repeat constructor.
  - vm_compute. reflexivity.
  - vm_compute. reflexivity.
Defined.

Lemma map_lookup_cons (k0 v0 : string) (d : list (string * string)) (k : string) :
  map_lookup ((k0, v0) :: d) k = if String.eqb k0 k then Some v0 else map_lookup d k.
Proof. unfold map_lookup. simpl. destruct (String.eqb k0 k); reflexivity. Qed.

Lemma map_lookup_insert (d : list (string * string)) (k v k' : string) :
  map_lookup (map_insert d k v) k' = if String.eqb k k' then Some v else map_lookup d k'.
Proof.
  induction d as [|[k0 v0] d IH]; simpl.
  - rewrite map_lookup_cons. reflexivity.
  - destruct (String.eqb_spec k0 k) as [->|Hne].
    + rewrite !map_lookup_cons. destruct (String.eqb k k'); reflexivity.
    + rewrite !map_lookup_cons, IH.
      destruct (String.eqb_spec k0 k') as [->|]; [|reflexivity].
      destruct (String.eqb_spec k k') as [->|]; [congruence|reflexivity].
Qed.

Lemma kubectl_detail_line_other (d : list (string * string)) (line k : string) :
  ~ In k ["Status"; "Node"; "Restarts"; "Image"] ->
  map_lookup (kubectl_detail_line d line) k = map_lookup d k.
Proof.
  intros Hk. unfold kubectl_detail_line.
  assert (Hi : forall d' k0 v, In k0 ["Status"; "Node"; "Restarts"; "Image"] ->
                 map_lookup (map_insert d' k0 v) k = map_lookup d' k).
  { intros d' k0 v Hk0. rewrite map_lookup_insert.
    destruct (String.eqb_spec k0 k) as [->|]; [contradiction|reflexivity]. }
  destruct (Contains (TrimSpace line) "phase:"), (Contains (TrimSpace line) "nodeName:"),
    (Contains (TrimSpace line) "restartCount:"), (Contains (TrimSpace line) "image:");
    repeat first [ match goal with |- context [match ?o with Some _ => _ | None => _ end] =>
                     destruct o end
                 | rewrite Hi by (simpl; tauto) ]; reflexivity.
Qed.

Lemma getPodDetailsViaKubectl_keys (podName namespace output : string) :
  map_lookup (getPodDetailsViaKubectl_output podName namespace output) "Name" = Some podName /\
  map_lookup (getPodDetailsViaKubectl_output podName namespace output) "Namespace" = Some namespace.
Proof.
  unfold getPodDetailsViaKubectl_output.
  set (d0 := map_insert (map_insert [] "Name" podName) "Namespace" namespace).
  assert (H0 : map_lookup d0 "Name" = Some podName /\ map_lookup d0 "Namespace" = Some namespace).
  { unfold d0. rewrite !map_lookup_insert. split; reflexivity. }
  clearbody d0. revert d0 H0.
  induction (SplitByte output "010") as [|line ls IH]; intros d0 H0; simpl; auto.
  apply IH. rewrite !kubectl_detail_line_other by (simpl; intuition discriminate). exact H0.
Qed.

Lemma Ek_test : orderedKeys = "Name" :: "Namespace" :: tl (tl orderedKeys).
Proof. reflexivity. Qed.

Lemma detail_rows_head_gen (d : list (string * string)) (ks : list string) (p ns : string) :
  lookup_value d "Name" = p -> lookup_value d "Namespace" = ns -> p <> "" -> ns <> "" ->
  map (fun k => [k; trunc70 (lookup_value d k)])
    (filter (fun k => negb (String.eqb (lookup_value d k) "")) ("Name" :: "Namespace" :: ks)) =
  ["Name"; trunc70 p] :: ["Namespace"; trunc70 ns] ::
  map (fun k => [k; trunc70 (lookup_value d k)])
    (filter (fun k => negb (String.eqb (lookup_value d k) "")) ks).
Proof.
  intros L1 L2 Hp Hn. cbn [filter]. rewrite L1, L2.
  destruct (String.eqb_spec p ""); [congruence|].
  destruct (String.eqb_spec ns ""); [congruence|]. cbn [negb map]. rewrite L1, L2. reflexivity.
Qed.

Lemma detail_rows_head (d : list (string * string)) (p ns : string) :
  map_lookup d "Name" = Some p -> map_lookup d "Namespace" = Some ns ->
  p <> "" -> ns <> "" ->
  exists rest, podDef_rows (Some d) = Some (["Name"; trunc70 p] :: ["Namespace"; trunc70 ns] :: rest).
Proof.
  intros H1 H2 Hp Hn. unfold podDef_rows. rewrite ordered_rows_spec, remaining_rows_spec.
  assert (L1 : lookup_value d "Name" = p) by (unfold lookup_value; rewrite H1; reflexivity).
  assert (L2 : lookup_value d "Namespace" = ns) by (unfold lookup_value; rewrite H2; reflexivity).
  rewrite Ek_test.
  rewrite (detail_rows_head_gen d _ p ns L1 L2 Hp Hn).
  eexists. reflexivity.
Qed.

(** Feeding the kubectl detail map into the update gives a detail table whose first two rows are the pod name and the namespace. *)
Theorem kubectl_details_first_rows (tu : Msg -> table_Model -> table_Model * cmd) (m : model)
  (podName namespace output : string) (Hp : podName <> "") (Hn : namespace <> "") :
  exists m' rest,
    Update tu m (podDetailsMsg (Some (getPodDetailsViaKubectl_output podName namespace output)) None)
      = Some (m', CmdNil) /\
    rows (podDefTable m') = ["Name"; trunc70 podName] :: ["Namespace"; trunc70 namespace] :: rest.
Proof.
  destruct (getPodDetailsViaKubectl_keys podName namespace output) as [H1 H2].
  destruct (detail_rows_head _ _ _ H1 H2 Hp Hn) as [rest E].
  exists (set_podDefTable (table_New podDefColumns
            (["Name"; trunc70 podName] :: ["Namespace"; trunc70 namespace] :: rest) 20) m), rest.
  split; [|reflexivity].
  unfold Update, initPodDefTable. rewrite E. reflexivity.
Qed.

Lemma kubectl_details_first_rows_witness :
  exists m' rest,
    Update idle_widget startup_model
      (podDetailsMsg (Some (getPodDetailsViaKubectl_output "web-1" "default" ("status:" ++ String "010" "  phase: Running"))) None)
      = Some (m', CmdNil) /\
    rows (podDefTable m') = ["Name"; trunc70 "web-1"] :: ["Namespace"; trunc70 "default"] :: rest.
Proof.
  apply (kubectl_details_first_rows idle_widget startup_model "web-1" "default"
           ("status:" ++ String "010" "  phase: Running")); discriminate.
Defined.

Lemma go_index_bounds {A : Type} (l : list A) (i : Z) (x : A) :
  go_index l i = Some x -> 0 <= i < go_len l.
Proof.
  unfold go_index, go_len. destruct (i <? 0) eqn:E; [discriminate|].
  apply Z.ltb_ge in E. intros H. assert (Hn : nth_error l (Z.to_nat i) <> None) by congruence.
  apply nth_error_Some in Hn. lia.
Qed.

(** Enter on a Docker row opens the wizard at its first step with the "create new" entry selected and the row's tag (or id) as image, and loads the deployments. *)
Theorem enter_docker_opens_wizard (tu : Msg -> table_Model -> table_Model * cmd)
  (m : model) (d : TableData)
  (Ha : activeTab m = 1) (Hd : go_index (dockerData m) (cursor (table m)) = Some d) :
  exists m', Update tu m (KeyMsg "enter") = Some (m', CmdLoadDeployments) /\
    showModal m' = true /\ modalStep m' = 0 /\ selectedDeployment m' = -1 /\
    selectedImage m' = (if String.eqb (ImageTag d) "" then ImageID d else ImageTag d) /\
    table m' = table m /\ activeTab m' = 1 /\ dockerData m' = dockerData m /\
    showPodDef m' = showPodDef m.
Proof.
  pose proof (go_index_bounds _ _ _ Hd) as Hb.
  unfold Update, handleKey. simpl. rewrite Ha. simpl.
  replace (0 <? go_len (dockerData m)) with true by (symmetry; apply Z.ltb_lt; lia).
  replace (cursor (table m) <? go_len (dockerData m)) with true by (symmetry; apply Z.ltb_lt; lia).
  cbn [andb]. rewrite Hd.
  eexists; split; [reflexivity|]. cbn. repeat split; auto.
Qed.

Lemma enter_docker_opens_wizard_witness :
  exists m', Update idle_widget (set_modalStep 2 wizard_model) (KeyMsg "enter")
               = Some (m', CmdLoadDeployments) /\
    showModal m' = true /\ modalStep m' = 0 /\ selectedDeployment m' = -1 /\
    selectedImage m' = (if String.eqb (ImageTag scenario_image) "" then ImageID scenario_image
                        else ImageTag scenario_image) /\
    table m' = table (set_modalStep 2 wizard_model) /\ activeTab m' = 1 /\
    dockerData m' = dockerData (set_modalStep 2 wizard_model) /\
    showPodDef m' = showPodDef (set_modalStep 2 wizard_model).
Proof.
  apply (enter_docker_opens_wizard idle_widget (set_modalStep 2 wizard_model) scenario_image);
    reflexivity.
Defined.

(** Enter on a Kubernetes row opens the detail view for that pod and requests its details. *)
Theorem enter_kubernetes_opens_details (tu : Msg -> table_Model -> table_Model * cmd)
  (m : model) (kd : TableData)
  (Ha : activeTab m = 2) (Hk : go_index (kubesData m) (cursor (table m)) = Some kd) :
  exists m', Update tu m (KeyMsg "enter") = Some (m', CmdLoadPodDetails (PodName kd) (Namespace kd)) /\
    showPodDef m' = true /\ selectedPod m' = PodName kd /\ selectedPodNS m' = Namespace kd /\
    podDefTable m' = podDefTable m /\ showModal m' = showModal m /\ table m' = table m.
Proof.
  pose proof (go_index_bounds _ _ _ Hk) as Hb.
  unfold Update, handleKey. simpl. rewrite Ha. simpl.
  replace (0 <? go_len (kubesData m)) with true by (symmetry; apply Z.ltb_lt; lia).
  replace (cursor (table m) <? go_len (kubesData m)) with true by (symmetry; apply Z.ltb_lt; lia).
  cbn [andb]. rewrite Hk.
  eexists; split; [reflexivity|]. cbn. repeat split; auto.
Qed.

(** ctrl+d deletes the selected image on the Docker tab with no modal open and a valid cursor; with a negative cursor there it panics; in every other case the key goes to the table widget. *)
Theorem ctrl_d_delete_guard (tu : Msg -> table_Model -> table_Model * cmd) (m : model) :
  (forall d, activeTab m = 1 -> showModal m = false ->
     go_index (dockerData m) (cursor (table m)) = Some d ->
     Update tu m (KeyMsg "ctrl+d") = Some (m, CmdDeleteDockerImage (ImageID d))) /\
  (activeTab m = 1 -> showModal m = false -> dockerData m <> [] -> cursor (table m) < 0 ->
     Update tu m (KeyMsg "ctrl+d") = None) /\
  (activeTab m <> 1 \/ showModal m = true \/ dockerData m = [] \/
   go_len (dockerData m) <= cursor (table m) ->
     Update tu m (KeyMsg "ctrl+d") = Some (widget_update tu m (KeyMsg "ctrl+d"))).
Proof.
  split; [|split].
  - intros d Ha Hs Hd. pose proof (go_index_bounds _ _ _ Hd) as Hb.
    unfold Update, handleKey. simpl. rewrite Ha, Hs. simpl.
    replace (0 <? go_len (dockerData m)) with true by (symmetry; apply Z.ltb_lt; lia).
    replace (cursor (table m) <? go_len (dockerData m)) with true by (symmetry; apply Z.ltb_lt; lia).
    cbn [andb]. rewrite Hd. reflexivity.
  - intros Ha Hs Hne Hc. unfold Update, handleKey. simpl. rewrite Ha, Hs. simpl.
    assert (Hl : 0 < go_len (dockerData m))
      by (unfold go_len; destruct (dockerData m); [congruence|simpl length; lia]).
    replace (0 <? go_len (dockerData m)) with true by (symmetry; apply Z.ltb_lt; lia).
    replace (cursor (table m) <? go_len (dockerData m)) with true by (symmetry; apply Z.ltb_lt; lia).
    cbn [andb]. unfold go_index.
    replace (cursor (table m) <? 0) with true by (symmetry; apply Z.ltb_lt; lia).
    reflexivity.
  - intros H. unfold Update, handleKey. simpl.
    destruct (Z.eqb_spec (activeTab m) 1) as [Ha|Ha]; [|reflexivity].
    destruct (showModal m) eqn:Hs; [rewrite !andb_false_r; reflexivity|].
    destruct (0 <? go_len (dockerData m)) eqn:El; [|reflexivity].
    cbn [andb negb].
    destruct (cursor (table m) <? go_len (dockerData m)) eqn:Ec; [|reflexivity].
    exfalso. apply Z.ltb_lt in El, Ec.
    destruct H as [H|[H|[H|H]]]; [congruence|congruence| |lia].
    rewrite H in El. cbn in El. lia.
Qed.

(** ctrl+p pulls the selected image on the Docker tab with no modal open, a valid cursor and a tag other than "" and "N/A"; with a negative cursor there it panics; in every other case the key goes to the table widget. *)
Theorem ctrl_p_pull_guard (tu : Msg -> table_Model -> table_Model * cmd) (m : model) :
  (forall d, activeTab m = 1 -> showModal m = false ->
     go_index (dockerData m) (cursor (table m)) = Some d ->
     ImageTag d <> "" -> ImageTag d <> "N/A" ->
     Update tu m (KeyMsg "ctrl+p") = Some (m, CmdPullDockerImage (ImageTag d))) /\
  (forall d, go_index (dockerData m) (cursor (table m)) = Some d ->
     ImageTag d = "" \/ ImageTag d = "N/A" ->
     Update tu m (KeyMsg "ctrl+p") = Some (widget_update tu m (KeyMsg "ctrl+p"))) /\
  (activeTab m = 1 -> showModal m = false -> dockerData m <> [] -> cursor (table m) < 0 ->
     Update tu m (KeyMsg "ctrl+p") = None) /\
  (activeTab m <> 1 \/ showModal m = true \/ dockerData m = [] \/
   go_len (dockerData m) <= cursor (table m) ->
     Update tu m (KeyMsg "ctrl+p") = Some (widget_update tu m (KeyMsg "ctrl+p"))).
Proof.
  split; [|split; [|split]].
  - intros d Ha Hs Hd Ht1 Ht2. pose proof (go_index_bounds _ _ _ Hd) as Hb.
    unfold Update, handleKey. simpl. rewrite Ha, Hs. simpl.
    replace (0 <? go_len (dockerData m)) with true by (symmetry; apply Z.ltb_lt; lia).
    replace (cursor (table m) <? go_len (dockerData m)) with true by (symmetry; apply Z.ltb_lt; lia).
    cbn [andb]. rewrite Hd.
    destruct (String.eqb_spec (ImageTag d) ""); [congruence|].
    destruct (String.eqb_spec (ImageTag d) "N/A"); [congruence|]. reflexivity.
  - intros d Hd Ht. pose proof (go_index_bounds _ _ _ Hd) as Hb.
    unfold Update, handleKey. simpl.
    replace (0 <? go_len (dockerData m)) with true by (symmetry; apply Z.ltb_lt; lia).
    replace (cursor (table m) <? go_len (dockerData m)) with true by (symmetry; apply Z.ltb_lt; lia).
    destruct ((activeTab m =? 1) && true && negb (showModal m)); [|reflexivity].
    rewrite Hd.
    destruct Ht as [Ht|Ht]; rewrite Ht; reflexivity.
  - intros Ha Hs Hne Hc. unfold Update, handleKey. simpl. rewrite Ha, Hs. simpl.
    assert (Hl : 0 < go_len (dockerData m))
      by (unfold go_len; destruct (dockerData m); [congruence|simpl length; lia]).
    replace (0 <? go_len (dockerData m)) with true by (symmetry; apply Z.ltb_lt; lia).
    replace (cursor (table m) <? go_len (dockerData m)) with true by (symmetry; apply Z.ltb_lt; lia).
    cbn [andb]. unfold go_index.
    replace (cursor (table m) <? 0) with true by (symmetry; apply Z.ltb_lt; lia).
    reflexivity.
  - intros H. unfold Update, handleKey. simpl.
    destruct (Z.eqb_spec (activeTab m) 1) as [Ha|Ha]; [|reflexivity].
    destruct (showModal m) eqn:Hs; [rewrite !andb_false_r; reflexivity|].
    destruct (0 <? go_len (dockerData m)) eqn:El; [|reflexivity].
    cbn [andb negb].
    destruct (cursor (table m) <? go_len (dockerData m)) eqn:Ec; [|reflexivity].
    exfalso. apply Z.ltb_lt in El, Ec.
    destruct H as [H|[H|[H|H]]]; [congruence|congruence| |lia].
    rewrite H in El. cbn in El. lia.
Qed.

(** A window resize records the new size and resizes the tables, and changes nothing else. *)
Theorem resize_sets_sizes_only (tu : Msg -> table_Model -> table_Model * cmd) (m : model) (w h : Z) :
  exists m', Update tu m (WindowSizeMsg w h) = Some (m', CmdNil) /\
    width m' = w /\ height m' = h /\
    table m' = SetHeight (h - 15) (SetWidth w (table m)) /\
    podDefTable m' = match cols (podDefTable m) with
                     | [] => podDefTable m
                     | _ => SetHeight (h - 15) (SetWidth w (podDefTable m))
                     end /\
    set_width (width m) (set_height (height m) (set_table (table m)
      (set_podDefTable (podDefTable m) m'))) = m.
Proof.
  unfold Update. destruct (cols (podDefTable m)) eqn:E; cbn [cols podDefTable set_table set_height set_width].
  - rewrite E. eexists; split; [reflexivity|]. cbn. repeat split; destruct m; reflexivity.
  - rewrite E. eexists; split; [reflexivity|]. cbn. repeat split; destruct m; reflexivity.
Qed.

(** A detail completion rebuilds the detail table with its fixed columns, cursor 0 and height 20, and leaves the view flags and the main table alone. *)
Theorem pod_details_fresh_table (tu : Msg -> table_Model -> table_Model * cmd) (m : model)
  (details : option (list (string * string))) (err : option string) :
  exists m', Update tu m (podDetailsMsg details err) = Some (m', CmdNil) /\
    showPodDef m' = showPodDef m /\ showModal m' = showModal m /\ table m' = table m /\
    cols (podDefTable m') = podDefColumns /\ cursor (podDefTable m') = 0 /\
    tblWidth (podDefTable m') = 0 /\ tblHeight (podDefTable m') = 20.
Proof.
  destruct (initPodDefTable_some (match err with None => details | Some _ => None end) m)
    as (r & _ & E).
  unfold Update. rewrite E. eexists; split; [reflexivity|]. cbn. repeat split.
Qed.

(** The row built for an image has an id of at most 20 bytes cut from the image id, a non-empty size, a tag that is the first repository tag or "N/A" and never "<none>:<none>", and the creation date copied. *)
Theorem dockerImage_row_fields (img : Docker.DockerImage) :
  String.prefix (ImageID (dockerImage_row img)) (Docker.ID img) = true /\
  str_len (ImageID (dockerImage_row img)) = Z.min (str_len (Docker.ID img)) 20 /\
  ImageSize (dockerImage_row img) <> "" /\
  ImageTag (dockerImage_row img) <> "<none>:<none>" /\
  (ImageTag (dockerImage_row img) = "N/A" \/
   hd_error (Docker.RepoTags img) = Some (ImageTag (dockerImage_row img))) /\
  CreatedAt (dockerImage_row img) = Docker.CreatedAt img.
Proof.
  destruct img as [id tags size created]. unfold dockerImage_row. cbn [Docker.ID Docker.RepoTags Docker.Size Docker.CreatedAt ImageID ImageSize ImageTag CreatedAt].
  split; [|split; [|split; [|split; [|split]]]].
  - destruct (20 <? str_len id); [apply prefix_substring0|].
    clear. induction id as [|c id IH]; simpl; auto. destruct (ascii_dec c c); [auto|congruence].
  - destruct (20 <? str_len id) eqn:E.
    + apply Z.ltb_lt in E. unfold str_len in *. rewrite length_substring0_min. lia.
    + apply Z.ltb_ge in E. lia.
  - destruct (String.eqb_spec size "") as [E|E]; [discriminate|].
    destruct (String.eqb_spec size "N/A"); [discriminate|exact E].
  - destruct tags as [|t tags']; [discriminate|].
    destruct (String.eqb_spec t "<none>:<none>"); [discriminate|auto].
  - destruct tags as [|t tags']; [auto|].
    destruct (String.eqb_spec t "<none>:<none>"); auto.
  - reflexivity.
Qed.

(** A failed image refresh leaves the model unchanged; a successful one stores the converted images and, on the Docker tab, shows them under the Docker columns. *)
Theorem refresh_result_update (tu : Msg -> table_Model -> table_Model * cmd) (m : model)
  (r : list Docker.DockerImage + string) :
  match r with
  | inr _ => Update tu m (refreshDockerData_msg r) = Some (m, CmdNil)
  | inl imgs =>
      exists m', Update tu m (refreshDockerData_msg r) = Some (m', CmdNil) /\
        dockerData m' = map dockerImage_row imgs /\
        (activeTab m = 1 -> cols (table m) <> [] ->
           cols (table m') = dockerColumns /\
           map_opt docker_row (map dockerImage_row imgs) = Some (rows (table m'))) /\
        (activeTab m <> 1 -> table m' = table m)
  end.
Proof.
  destruct r as [imgs|e]; [|reflexivity].
  unfold refreshDockerData_msg, Update. cbn [activeTab set_dockerData].
  destruct (Z.eqb_spec (activeTab m) 1) as [Ha|Ha].
  - destruct (cols (table m)) eqn:Ec.
    + eexists; split; [reflexivity|]. unfold updateTableForTab. cbn. rewrite Ec.
      split; [reflexivity|]. split; [intros _ H; congruence|intros; congruence].
    + assert (Hc : cols (table (set_dockerData (map dockerImage_row imgs) m)) <> [])
        by (cbn; rewrite Ec; discriminate).
      destruct (updateTableForTab_spec _ Hc) as (t & Et & Ect & Ert).
      rewrite Et. eexists; split; [reflexivity|]. cbn [dockerData table set_table set_dockerData].
      cbn [activeTab set_dockerData] in Ect, Ert. rewrite Ha in Ect, Ert.
      split; [reflexivity|]. split; [|intros; congruence].
      intros _ _. split; [exact Ect|]. exact Ert.
  - eexists; split; [reflexivity|]. cbn. split; [reflexivity|].
    split; [intros; congruence|reflexivity].
Qed.

Lemma shape_inv_step (tu : Msg -> table_Model -> table_Model * cmd)
  (m : model) (msg : Msg) (m' : model) (c : cmd) :
  shape_inv m -> Update tu m msg = Some (m', c) -> shape_inv m'.
Proof.
  intros (Ht & Ha & Hs) Hstep. unfold shape_inv.
  destruct msg; unfold_step Hstep; step_cases Hstep;
    clean_some; cbn in *; bools_to_props; try (repeat split; auto; lia || discriminate || congruence).
  rewrite Ht. cbn. split; [reflexivity|]. split; [|exact Hs].
  pose proof (Z.rem_bound_pos (activeTab m + 1) 3 ltac:(lia) ltac:(lia)). lia.
Qed.

Lemma shape_inv_reachable (tu : Msg -> table_Model -> table_Model * cmd) (m : model) :
  reachable tu m -> shape_inv m.
Proof.
  induction 1 as [g d k m0 H0|m msg m' c Hr IH Hstep].
  - unfold startTUI in H0. destruct (map_opt git_row g); [|discriminate].
    injection H0 as <-. unfold shape_inv; cbn. repeat split; lia || discriminate.
  - eapply shape_inv_step; eauto.
Qed.

(** Every reachable model has the three fixed tabs, an active tab among them, the wizard at its first step while the modal is closed, and accepts the tab key. *)
Theorem reachable_tabs_and_modal (tu : Msg -> table_Model -> table_Model * cmd) (m : model)
  (Hr : reachable tu m) :
  tabs m = ["Git"; "Docker"; "Kubernetes"] /\ 0 <= activeTab m <= 2 /\
  (showModal m = false -> modalStep m = 0) /\
  Update tu m (KeyMsg "tab") <> None.
Proof.
  destruct (shape_inv_reachable tu m Hr) as (Ht & Ha & Hs).
  split; [exact Ht|]. split; [exact Ha|]. split; [exact Hs|].
  unfold Update, handleKey. simpl. rewrite Ht. cbn. discriminate.
Qed.

Lemma reachable_tabs_and_modal_witness :
  tabs wizard_model = ["Git"; "Docker"; "Kubernetes"] /\ 0 <= activeTab wizard_model <= 2 /\
  (showModal wizard_model = false -> modalStep wizard_model = 0) /\
  Update idle_widget wizard_model (KeyMsg "tab") <> None.
Proof.
  apply (reachable_tabs_and_modal idle_widget wizard_model wizard_model_reachable).
Defined.

(** The tab key cycles the active tab without closing an open wizard or touching its step, image, selection or deployments. *)
Theorem tab_key_keeps_wizard (tu : Msg -> table_Model -> table_Model * cmd) (m : model)
  (Hr : reachable tu m) (Hs : showModal m = true) :
  exists m', Update tu m (KeyMsg "tab") = Some (m', CmdNil) /\
    activeTab m' = Z.rem (activeTab m + 1) 3 /\ showModal m' = true /\
    modalStep m' = modalStep m /\ selectedImage m' = selectedImage m /\
    selectedDeployment m' = selectedDeployment m /\ deployments m' = deployments m.
Proof.
  destruct (shape_inv_reachable tu m Hr) as (Ht & _ & _).
  unfold Update, handleKey. simpl. rewrite Ht. cbn.
  destruct (updateTableForTab_set_table (set_activeTab (Z.rem (activeTab m + 1) 3) m)) as [t Et].
  rewrite Et. eexists; split; [reflexivity|]. cbn. repeat split; auto.
Qed.

Lemma tab_key_keeps_wizard_witness :
  exists m', Update idle_widget wizard_model (KeyMsg "tab") = Some (m', CmdNil) /\
    activeTab m' = Z.rem (activeTab wizard_model + 1) 3 /\ showModal m' = true /\
    modalStep m' = modalStep wizard_model /\ selectedImage m' = selectedImage wizard_model /\
    selectedDeployment m' = selectedDeployment wizard_model /\
    deployments m' = deployments wizard_model.
Proof.
  apply (tab_key_keeps_wizard idle_widget wizard_model wizard_model_reachable). reflexivity.
Defined.

Lemma deployment_lines_length (ds : list TableData) (i s : Z) :
  length (deployment_lines ds i s) = length ds.
Proof. revert i; induction ds as [|d ds IH]; intros i; simpl; auto. Qed.

Lemma deployment_lines_marked (ds : list TableData) (i s : Z) :
  length (filter snd (deployment_lines ds i s)) =
  if (i <=? s) && (s <? i + go_len ds) then 1%nat else 0%nat.
Proof.
  unfold go_len. revert i; induction ds as [|d ds IH]; intros i; cbn [deployment_lines filter length snd].
  - change (Z.of_nat (length [])) with 0. rewrite Z.add_0_r.
    destruct (i <=? s) eqn:E1, (s <? i) eqn:E2; auto.
    apply Z.leb_le in E1; apply Z.ltb_lt in E2; lia.
  - destruct (Z.eqb_spec i s) as [->|Hne]; cbn [length]; rewrite IH.
    + rewrite Z.leb_refl. replace (s + 1 <=? s) with false by (symmetry; apply Z.leb_gt; lia).
      replace (s <? s + Z.of_nat (S (length ds))) with true
        by (symmetry; apply Z.ltb_lt; lia). reflexivity.
    + simpl length. rewrite Nat2Z.inj_succ.
      destruct (i <=? s) eqn:E1, (s <? i + Z.succ (Z.of_nat (length ds))) eqn:E2,
        (i + 1 <=? s) eqn:E3, (s <? i + 1 + Z.of_nat (length ds)) eqn:E4; cbn [andb]; auto;
        repeat match goal with
        | H : (_ <=? _) = true |- _ => apply Z.leb_le in H
        | H : (_ <=? _) = false |- _ => apply Z.leb_gt in H
        | H : (_ <? _) = true |- _ => apply Z.ltb_lt in H
        | H : (_ <? _) = false |- _ => apply Z.ltb_ge in H
        end; lia.
Qed.

(** The target list of the wizard has one line more than there are deployments, and exactly one line is highlighted when the selection is -1 or a valid index, none otherwise. *)
Theorem renderModal_one_highlight (m : model) (Hd : deployments m <> []) :
  length (renderModal_targets m) = S (length (deployments m)) /\
  length (filter snd (renderModal_targets m)) =
    if (-1 <=? selectedDeployment m) && (selectedDeployment m <? go_len (deployments m))
    then 1%nat else 0%nat.
Proof.
  unfold renderModal_targets. destruct (deployments m) as [|d ds] eqn:E; [congruence|].
  rewrite <- E. split.
  - cbn [length]. rewrite deployment_lines_length. reflexivity.
  - cbn [filter snd]. rewrite E.
    destruct (Z.eqb_spec (selectedDeployment m) (-1)) as [Hs|Hs]; cbn [length];
      rewrite deployment_lines_marked; try rewrite Hs;
      unfold go_len; simpl length.
    + reflexivity.
    + set (s := selectedDeployment m) in *. set (n := Z.of_nat (S (length ds))).
      assert (Hn : 0 < n) by (unfold n; lia). clearbody n.
      destruct (0 <=? s) eqn:E1, (s <? 0 + n) eqn:E2, (-1 <=? s) eqn:E3, (s <? n) eqn:E4;
        cbn [andb]; auto;
        repeat match goal with
        | H : (_ <=? _) = true |- _ => apply Z.leb_le in H
        | H : (_ <=? _) = false |- _ => apply Z.leb_gt in H
        | H : (_ <? _) = true |- _ => apply Z.ltb_lt in H
        | H : (_ <? _) = false |- _ => apply Z.ltb_ge in H
        end; lia.
Qed.

(** How an image reference is split into repository and tag: the registry prefix is dropped, the tag is what follows the last colon, a reference without colon gets the tag "latest", and the empty or "N/A" reference gives "N/A" twice. *)
Theorem docker_repository_tag_cases (r t : string) :
  (r <> "" -> has_byte t ":" = false ->
     docker_repository_tag ("localhost:5000/" ++ r ++ ":" ++ t) = (r, t)) /\
  (has_byte r ":" = false ->
     docker_repository_tag ("localhost:5000/" ++ r) = (r, "latest")) /\
  (r <> "" -> has_byte t ":" = false ->
     HasPrefix (r ++ ":" ++ t) "localhost:5000/" = false ->
     docker_repository_tag (r ++ ":" ++ t) = (r, t)) /\
  (r <> "" -> has_byte r ":" = false -> r <> "N/A" ->
     docker_repository_tag r = (r, "latest")) /\
  docker_repository_tag "" = ("N/A", "N/A") /\
  docker_repository_tag "N/A" = ("N/A", "N/A").
Proof.
  split; [apply docker_repository_tag_registry_split|].
  split; [apply docker_repository_tag_registry_nocolon|].
  split; [|split; [|split; reflexivity]].
  - intros Hr Ht Hp. apply docker_repository_tag_split; auto.
    intros E. apply (f_equal (fun s => has_byte s ":")) in E.
    rewrite has_byte_app in E. cbn in E. rewrite orb_true_r in E. discriminate.
  - intros Hr Hc Hna. apply docker_repository_tag_nocolon; auto.
    apply has_byte_no_registry_prefix; exact Hc.
Qed.

Lemma docker_repository_tag_cases_witness :
  docker_repository_tag ("localhost:5000/" ++ "app" ++ ":" ++ "v1") = ("app", "v1") /\
  docker_repository_tag ("localhost:5000/" ++ "app") = ("app", "latest") /\
  docker_repository_tag ("app" ++ ":" ++ "v1") = ("app", "v1") /\
  docker_repository_tag "app" = ("app", "latest").
Proof.
  destruct (docker_repository_tag_cases "app" "v1") as (H1 & H2 & H3 & H4 & _).
  split; [apply H1; [discriminate|reflexivity]|].
  split; [apply H2; reflexivity|].
  split; [apply H3; [discriminate|reflexivity|reflexivity]|].
  apply H4; [discriminate|reflexivity|discriminate].
Defined.

Lemma updateTableForTab_row_arity_witness :
  cols (table startup_model) <> [] /\
  Forall (fun r => length r = length (cols (table (updateTableForTab startup_model))))
    (rows (table (updateTableForTab startup_model))).
Proof.
  split; [discriminate|]. apply updateTableForTab_row_arity. discriminate.
Defined.

Lemma deploymentNameFor_wellformed_witness :
  deploymentNameFor "localhost:5000/App_v1" = "localhost-5000-app-v1" /\
  ~ (65 <= nat_of_ascii "l" <= 90)%nat /\ ~ In "l"%char [":"; "/"; "_"; "."]%char.
Proof.
  split; [vm_compute; reflexivity|].
  apply (proj2 (proj2 (deploymentNameFor_wellformed "localhost:5000/App_v1")) "l"%char).
  vm_compute. auto.
Defined.


Lemma enter_kubernetes_opens_details_witness :
  exists m', Update idle_widget (set_activeTab 2 (set_kubesData [scenario_image] startup_model))
      (KeyMsg "enter") = Some (m', CmdLoadPodDetails (PodName scenario_image) (Namespace scenario_image)) /\
    showPodDef m' = true /\ selectedPod m' = PodName scenario_image /\
    selectedPodNS m' = Namespace scenario_image /\
    podDefTable m' = podDefTable (set_activeTab 2 (set_kubesData [scenario_image] startup_model)) /\
    showModal m' = showModal (set_activeTab 2 (set_kubesData [scenario_image] startup_model)) /\
    table m' = table (set_activeTab 2 (set_kubesData [scenario_image] startup_model)).
Proof.
  apply (enter_kubernetes_opens_details idle_widget
           (set_activeTab 2 (set_kubesData [scenario_image] startup_model)) scenario_image);
    reflexivity.
Defined.

Lemma ctrl_d_delete_guard_witness :
  Update idle_widget (set_showModal false wizard_model) (KeyMsg "ctrl+d") =
    Some (set_showModal false wizard_model, CmdDeleteDockerImage "abc123") /\
  Update idle_widget negative_cursor_model (KeyMsg "ctrl+d") = None /\
  Update idle_widget wizard_model (KeyMsg "ctrl+d") =
    Some (widget_update idle_widget wizard_model (KeyMsg "ctrl+d")).
Proof.
  split; [|split].
  - apply (proj1 (ctrl_d_delete_guard idle_widget (set_showModal false wizard_model))
             scenario_image); reflexivity.
  - apply (proj1 (proj2 (ctrl_d_delete_guard idle_widget negative_cursor_model)));
      [reflexivity|reflexivity|discriminate|reflexivity].
  - apply (proj2 (proj2 (ctrl_d_delete_guard idle_widget wizard_model))).
    right; left; reflexivity.
Defined.

Lemma ctrl_p_pull_guard_witness :
  Update idle_widget (set_showModal false wizard_model) (KeyMsg "ctrl+p") =
    Some (set_showModal false wizard_model, CmdPullDockerImage "localhost:5000/app:v1") /\
  Update idle_widget (set_dockerData [mkTableData "" "" "abc123" "" "N/A" "" "" "" "" "" "" "" ""]
      (set_showModal false wizard_model)) (KeyMsg "ctrl+p") =
    Some (widget_update idle_widget (set_dockerData [mkTableData "" "" "abc123" "" "N/A" "" "" "" "" "" "" "" ""]
      (set_showModal false wizard_model)) (KeyMsg "ctrl+p")) /\
  Update idle_widget negative_cursor_model (KeyMsg "ctrl+p") = None /\
  Update idle_widget wizard_model (KeyMsg "ctrl+p") =
    Some (widget_update idle_widget wizard_model (KeyMsg "ctrl+p")).
Proof.
  split; [|split; [|split]].
  - apply (proj1 (ctrl_p_pull_guard idle_widget (set_showModal false wizard_model))
             scenario_image); try reflexivity; discriminate.
  - apply (proj1 (proj2 (ctrl_p_pull_guard idle_widget
             (set_dockerData [mkTableData "" "" "abc123" "" "N/A" "" "" "" "" "" "" "" ""]
               (set_showModal false wizard_model))))
             (mkTableData "" "" "abc123" "" "N/A" "" "" "" "" "" "" "" ""));
      [reflexivity|right; reflexivity].
  - apply (proj1 (proj2 (proj2 (ctrl_p_pull_guard idle_widget negative_cursor_model))));
      [reflexivity|reflexivity|discriminate|reflexivity].
  - apply (proj2 (proj2 (proj2 (ctrl_p_pull_guard idle_widget wizard_model)))).
    right; left; reflexivity.
Defined.

Lemma refresh_result_update_witness :
  exists m', Update idle_widget wizard_model
      (refreshDockerData_msg (inl [Docker.mkDockerImage "sha256:0123456789abcdef0123" ["app:v2"] "12MB" "today"])) =
      Some (m', CmdNil) /\
    dockerData m' = map dockerImage_row [Docker.mkDockerImage "sha256:0123456789abcdef0123" ["app:v2"] "12MB" "today"] /\
    cols (table m') = dockerColumns /\
    map_opt docker_row (map dockerImage_row
      [Docker.mkDockerImage "sha256:0123456789abcdef0123" ["app:v2"] "12MB" "today"]) =
      Some (rows (table m')).
Proof.
  destruct (refresh_result_update idle_widget wizard_model
    (inl [Docker.mkDockerImage "sha256:0123456789abcdef0123" ["app:v2"] "12MB" "today"]))
    as (m' & E & Ed & Ht & _).
  exists m'. split; [exact E|]. split; [exact Ed|].
  apply Ht; [reflexivity|discriminate].
Defined.

Lemma renderModal_one_highlight_witness :
  length (renderModal_targets (set_deployments [scenario_image] wizard_model)) = 2%nat /\
  length (filter snd (renderModal_targets (set_deployments [scenario_image] wizard_model))) = 1%nat.
Proof.
  apply (renderModal_one_highlight (set_deployments [scenario_image] wizard_model)).
  discriminate.
Defined.
